(** * sense: model assembly and tag bookkeeping

    A shallow embedding of
    - [examples/run_volleyball_classifier.py]: the entry point that merges a
      backbone checkpoint with a custom classifier checkpoint, inverts the
      label metadata and hands everything to the [Controller];
    - [tools/sense_studio/project_tags.py]: the three request handlers that
      create, remove and rename the tags of a project.

    Python dictionaries whose iteration order is irrelevant are [gmap]s,
    the label dictionaries (whose order decides which entry survives an
    inversion) are insertion-ordered association lists, Python exceptions
    are explicit error results. *)

From Stdlib Require Import ZArith QArith Lia.
From stdpp Require Import base gmap sets list strings.

Local Open Scope string_scope.
Local Open Scope list_scope.

#[local] Set Warnings "-clear-no-such-hyp".

(** ** Python values that the entry point manipulates *)

Inductive pyval : Type :=
  | PyNone
  | PyStr (s : string)
  | PyInt (z : Z)
  | PyBool (b : bool).

(** Truth value testing: [None], the empty string, [0] and [False] are
    false, everything else is true. *)
Definition truthy (v : pyval) : bool :=
  match v with
  | PyNone => false
  | PyStr s => negb (String.eqb s EmptyString)
  | PyInt z => negb (Z.eqb z 0)
  | PyBool b => b
  end.

(** [a or b] *)
Definition py_or (a b : pyval) : pyval :=
  if truthy a then a else b.

(** ** Insertion-ordered dictionaries

    [json.load] returns a [dict]; iterating over [items()] follows the
    insertion order, assigning to a key that is present keeps its place and
    assigning to a new key appends. *)
Module PyDict.
Section dict.
Context {K V : Type} `{EqDecision K}.

Fixpoint get (d : list (K * V)) (k : K) : option V :=
  match d with
  | [] => None
  | (k', v) :: rest => if decide (k = k') then Some v else get rest k
  end.

Fixpoint set (d : list (K * V)) (k : K) (v : V) : list (K * V) :=
  match d with
  | [] => [(k, v)]
  | (k', v') :: rest =>
      if decide (k = k') then (k, v) :: rest else (k', v') :: set rest k v
  end.

Definition items (d : list (K * V)) : list (K * V) := d.
Definition keys (d : list (K * V)) : list K := d.*1.
Definition len (d : list (K * V)) : nat := length d.

(** A list of pairs is a dictionary when no key occurs twice. *)
Definition wf (d : list (K * V)) : Prop := NoDup (keys d).
End dict.
End PyDict.

(** ** Checkpoint merge ([run_volleyball_classifier.py], lines 50-52)

    A checkpoint is a dictionary from layer names to tensors; the tensors
    are opaque, so the development is parametric in their type [W]. *)
Section Checkpoint.
Context {W : Type}.

(** [d.pop(key)]: the value and the dictionary without the key, or a
    [KeyError] (here [None]) when the key is absent. *)
Definition dict_pop (key : string) (d : gmap string W)
  : option (W * gmap string W) :=
  match d !! key with
  | Some v => Some (v, delete key d)
  | None => None
  end.

(** [set(checkpoint.keys()).intersection(checkpoint_classifier.keys())] *)
Definition name_finetuned_layers
    (checkpoint checkpoint_classifier : gmap string W) : gset string :=
  dom checkpoint ∩ dom checkpoint_classifier.

(** The body of the [for] loop, run over the keys in the order [keys]:
    [checkpoint[key] = checkpoint_classifier.pop(key)]. Both dictionaries
    are mutated in place, so the pair of them is the loop state. *)
Fixpoint merge_loop (keys : list string)
    (checkpoint checkpoint_classifier : gmap string W)
  : option (gmap string W * gmap string W) :=
  match keys with
  | [] => Some (checkpoint, checkpoint_classifier)
  | key :: rest =>
      match dict_pop key checkpoint_classifier with
      | Some (v, popped) => merge_loop rest (<[key := v]> checkpoint) popped
      | None => None
      end
  end.

(** The loop iterates over a Python [set], whose order is unspecified;
    [elements] fixes one enumeration, and [merge_loop_any_order] below
    shows that the enumeration does not matter. *)
Definition merge_finetuned
    (checkpoint checkpoint_classifier : gmap string W)
  : option (gmap string W * gmap string W) :=
  merge_loop (elements (name_finetuned_layers checkpoint checkpoint_classifier))
             checkpoint checkpoint_classifier.
End Checkpoint.

(** ** The entry point ([run_volleyball_classifier.py])

    What [docopt] returns for the usage string of the script: an option
    that takes an argument is a string when given and [None] otherwise, the
    flag [--use_gpu] is a boolean. *)
Record Args : Type := {
  arg_custom_classifier : option string;
  arg_camera_id : option string;
  arg_path_in : option string;
  arg_path_out : option string;
  arg_title : option string;
  arg_use_gpu : bool
}.

(** [args['--name']] *)
Definition arg_value (o : option string) : pyval :=
  match o with
  | Some s => PyStr s
  | None => PyNone
  end.

(** [INT2LAB = {value: key for key, value in class2int.items()}] *)
Definition INT2LAB (class2int : list (string * Z)) : list (Z * string) :=
  foldl (λ acc '(key, value), PyDict.set acc value key) [] (PyDict.items class2int).

(** The objects of the [sense] library that the script builds are
    represented by the arguments the script passes to their constructors
    and to [load_state_dict]. *)
Record StridedInflatedEfficientNet (W : Type) : Type := {
  fe_state_dict : gmap string W
}.

Record LogisticRegression (W : Type) : Type := {
  num_in : nat;
  num_out : nat;
  lr_state_dict : gmap string W
}.

Record Pipe (W : Type) : Type := {
  pipe_feature_extractor : StridedInflatedEfficientNet W;
  pipe_feature_converter : LogisticRegression W
}.

Inductive PostProcessor : Type :=
  | PostprocessClassificationOutput (mapping : list (Z * string)) (smoothing : nat)
  | TwoPositionsRepCounter (mapping : list (string * Z))
      (position0 position1 : string) (threshold0 threshold1 : Q)
      (out_key : string).

Inductive DisplayOp : Type :=
  | DisplayTopKClassificationOutputs (top_k : nat) (threshold : Q)
  | DisplayRepCounts2 (keys : list string) (y_offset : nat).

Record DisplayResults : Type := {
  title : pyval;
  display_ops : list DisplayOp;
  border_size : nat
}.

Record Controller (W : Type) : Type := {
  neural_network : Pipe W;
  post_processors : list PostProcessor;
  results_display : DisplayResults;
  callbacks : list PostProcessor;
  camera_id : pyval;
  path_in : pyval;
  path_out : pyval;
  use_gpu : bool
}.

Arguments fe_state_dict {W} _.
Arguments num_in {W} _.
Arguments num_out {W} _.
Arguments lr_state_dict {W} _.
Arguments pipe_feature_extractor {W} _.
Arguments pipe_feature_converter {W} _.
Arguments neural_network {W} _.
Arguments post_processors {W} _.
Arguments results_display {W} _.
Arguments callbacks {W} _.
Arguments camera_id {W} _.
Arguments path_in {W} _.
Arguments path_out {W} _.
Arguments use_gpu {W} _.

Section EntryPoint.
Context {W : Type}.

(** The file system and the library, as far as the script reads them:
    [engine.load_weights], [open] followed by [json.load] on the label
    file (a failure of either is [None]), [os.path.join], and the
    [feature_dim] attribute of the backbone. *)
Variable load_weights : string → option (gmap string W).
Variable load_label2int : string → option (list (string * Z)).
Variable path_join : string → string → string.
Variable feature_dim : nat.

Definition postprocessor (class2int : list (string * Z)) : list PostProcessor :=
  [ PostprocessClassificationOutput (INT2LAB class2int) 4;
    TwoPositionsRepCounter class2int
      "forearm_passing_position_1" "forearm_passing_position_2"
      (1 # 10) (5 # 100) "forearm passes";
    TwoPositionsRepCounter class2int
      "overhead_passing_position_1" "overhead_passing_position_2"
      (18 # 100) (18 # 100) "overhead passes";
    TwoPositionsRepCounter class2int
      "pokey_position_1" "pokey_position_2"
      (1 # 10) (1 # 10) "pokeys";
    TwoPositionsRepCounter class2int
      "one_arm_passing_position_1" "one_arm_passing_position_2"
      (2 # 10) (2 # 10) "one arm passes";
    TwoPositionsRepCounter class2int
      "bouncing_ball_position_1" "bouncing_ball_position_2"
      (1 # 10) (1 # 10) "bounces" ].

Definition display_ops_of_script : list DisplayOp :=
  [ DisplayTopKClassificationOutputs 3 0;
    DisplayRepCounts2
      ["forearm passes"; "overhead passes"; "pokeys"; "one arm passes"; "bounces"]
      120 ].

(** The body of [if __name__ == "__main__":] up to the construction of
    the [Controller]; [None] is an uncaught exception. *)
Definition main (args : Args) : option (Controller W) :=
  let camera_id := py_or (arg_value (arg_camera_id args)) (PyInt 0) in
  let path_in := py_or (arg_value (arg_path_in args)) PyNone in
  let path_out := py_or (arg_value (arg_path_out args)) PyNone in
  let custom_classifier := py_or (arg_value (arg_custom_classifier args)) PyNone in
  let title := py_or (arg_value (arg_title args)) PyNone in
  let use_gpu := arg_use_gpu args in
  checkpoint ← load_weights "resources/backbone/strided_inflated_efficientnet.ckpt";
  directory ← match custom_classifier with PyStr p => Some p | _ => None end;
  checkpoint_classifier ← load_weights (path_join directory "classifier.checkpoint");
  '(checkpoint, checkpoint_classifier) ←
    merge_finetuned checkpoint checkpoint_classifier;
  let feature_extractor := {| fe_state_dict := checkpoint |} in
  class2int ← load_label2int (path_join directory "label2int.json");
  let gesture_classifier :=
    {| num_in := feature_dim;
       num_out := PyDict.len (INT2LAB class2int);
       lr_state_dict := checkpoint_classifier |} in
  let net :=
    {| pipe_feature_extractor := feature_extractor;
       pipe_feature_converter := gesture_classifier |} in
  let display_results :=
    {| title := title;
       display_ops := display_ops_of_script;
       border_size := 100 |} in
  Some {| neural_network := net;
          post_processors := postprocessor class2int;
          results_display := display_results;
          callbacks := [];
          camera_id := camera_id;
          path_in := path_in;
          path_out := path_out;
          use_gpu := use_gpu |}.

(** The files a run reads: the backbone checkpoint, and the classifier
    checkpoint and label file of the directory [--custom_classifier]. *)
Definition files_present (args : Args) (directory : string)
    (checkpoint classifier : gmap string W)
    (class2int : list (string * Z)) : Prop :=
  arg_custom_classifier args = Some directory
  ∧ directory ≠ EmptyString
  ∧ load_weights "resources/backbone/strided_inflated_efficientnet.ckpt"
    = Some checkpoint
  ∧ load_weights (path_join directory "classifier.checkpoint") = Some classifier
  ∧ load_label2int (path_join directory "label2int.json") = Some class2int.
End EntryPoint.

(** ** Project tags ([tools/sense_studio/project_tags.py]) *)

(** Modelled from the spec: the project configuration document, which
    [project_utils.load_project_config] reads and
    [project_utils.write_project_config] persists; that module is not part
    of the sources at hand. The document has the fields [project_tags]
    (integer tag id to tag name), [max_tag_index] (highest id ever
    allocated) and [classes] (label string to set of tag ids). *)
Record Config : Type := {
  project_tags : gmap Z string;
  max_tag_index : Z;
  classes : gmap string (gset Z)
}.

(** The exceptions that can end a handler early. *)
Inductive exn : Type :=
  | KeyError
  | BadRequestKeyError
  | ProjectNotFound.

(** [redirect(url_for(endpoint, project=project))] *)
Inductive response : Type :=
  | Redirect (endpoint : string) (project : string).

(** The persisted configurations, by project path. *)
Abbreviation Store := (gmap string Config).

(** A handler reads and writes the store and either returns or raises. *)
Definition Handler (A : Type) : Type := Store → (exn + A) * Store.

Definition ret {A : Type} (a : A) : Handler A := λ s, (inr a, s).

Definition raise {A : Type} (e : exn) : Handler A := λ s, (inl e, s).

Definition bind {A B : Type} (m : Handler A) (k : A → Handler B) : Handler B :=
  λ s, match m s with
       | (inr a, s') => k a s'
       | (inl e, s') => (inl e, s')
       end.

Notation "'let!' x ':=' m 'in' k" := (bind m (λ x, k))
  (at level 10, x name, m at level 100, k at level 200).
Notation "m ';;!' k" := (bind m (λ _, k))
  (at level 100, k at level 200, right associativity).

(** Modelled from the spec: [project_utils.load_project_config] returns
    the document persisted for the path and fails when there is none. *)
Definition load_project_config (path : string) : Handler Config :=
  λ s, match s !! path with
       | Some config => (inr config, s)
       | None => (inl ProjectNotFound, s)
       end.

(** Modelled from the spec: [project_utils.write_project_config] persists
    the document for the path. *)
Definition write_project_config (path : string) (config : Config) : Handler unit :=
  λ s, (inr tt, <[path := config]> s).

(** [request.form[name]]: a missing field is a [BadRequestKeyError]. *)
Definition form_get (data : gmap string string) (name : string) : Handler string :=
  match data !! name with
  | Some v => ret v
  | None => raise BadRequestKeyError
  end.

(** [del d[key]]: a [KeyError] when the key is absent. *)
Definition dict_del (key : Z) (d : gmap Z string) : Handler (gmap Z string) :=
  match d !! key with
  | Some _ => ret (delete key d)
  | None => raise KeyError
  end.

(** [if tag_idx in tags: tags.remove(tag_idx)] on one class's tag set. *)
Definition remove_from_class (tag_idx : Z) (tags : gset Z) : gset Z :=
  if decide (tag_idx ∈ tags) then tags ∖ {[tag_idx]} else tags.

(** The same statement on a tag set that is kept as a list, the form a
    JSON document gives it: [list.remove] drops the first occurrence. *)
Fixpoint list_remove (tag_idx : Z) (tags : list Z) : list Z :=
  match tags with
  | [] => []
  | t :: rest => if decide (tag_idx = t) then rest else t :: list_remove tag_idx rest
  end.

Definition remove_from_class_list (tag_idx : Z) (tags : list Z) : list Z :=
  if decide (tag_idx ∈ tags) then list_remove tag_idx tags else tags.

Section Handlers.
(** [urllib.parse.unquote] and [project_utils.lookup_project_path], with
    [None] for an unknown project. *)
Variable unquote : string → string.
Variable lookup_project_path : string → option string.

Definition project_path (project : string) : Handler string :=
  match lookup_project_path project with
  | Some path => ret path
  | None => raise ProjectNotFound
  end.

Definition create_tag (project : string) (data : gmap string string)
  : Handler response :=
  let project := unquote project in
  let! path := project_path project in
  let! config := load_project_config path in
  let! tag_name := form_get data "newTagName" in
  let new_tag_index := (max_tag_index config + 1)%Z in
  let config :=
    {| project_tags := <[new_tag_index := tag_name]> (project_tags config);
       max_tag_index := new_tag_index;
       classes := classes config |} in
  write_project_config path config ;;!
  ret (Redirect "project_details" project).

Definition remove_tag (project : string) (tag_idx : Z) : Handler response :=
  let project := unquote project in
  let! path := project_path project in
  let! config := load_project_config path in
  let! tags_left := dict_del tag_idx (project_tags config) in
  let config :=
    {| project_tags := tags_left;
       max_tag_index := max_tag_index config;
       classes := remove_from_class tag_idx <$> classes config |} in
  write_project_config path config ;;!
  ret (Redirect "project_details" project).

Definition edit_tag (project : string) (tag_idx : Z) (data : gmap string string)
  : Handler response :=
  let project := unquote project in
  let! path := project_path project in
  let! config := load_project_config path in
  let! new_tag_name := form_get data "newTagName" in
  let config :=
    {| project_tags := <[tag_idx := new_tag_name]> (project_tags config);
       max_tag_index := max_tag_index config;
       classes := classes config |} in
  write_project_config path config ;;!
  ret (Redirect "project_details" project).

(** The routes of the blueprint [tags_bp]. *)
Inductive request : Type :=
  | CreateProjectTag (project : string) (data : gmap string string)
  | RemoveProjectTag (project : string) (tag_idx : Z)
  | EditProjectTag (project : string) (tag_idx : Z) (data : gmap string string).

Definition dispatch (r : request) : Handler response :=
  match r with
  | CreateProjectTag project data => create_tag project data
  | RemoveProjectTag project tag_idx => remove_tag project tag_idx
  | EditProjectTag project tag_idx data => edit_tag project tag_idx data
  end.

(** Serving requests one after the other: a request that raises is
    answered with an error and the next one finds the store as the
    failed one left it. *)
Definition serve (rs : list request) (s : Store) : Store :=
  foldl (λ s r, (dispatch r s).2) s rs.
(** The project named in the URL resolves to [path], where [config] is
    persisted. *)
Definition project_at (s : Store) (project path : string) (config : Config)
  : Prop :=
  lookup_project_path (unquote project) = Some path ∧ s !! path = Some config.
End Handlers.

(** No tag of the document has an id above [max_tag_index], the highest id
    ever allocated. *)
Definition tags_bounded (config : Config) : Prop :=
  ∀ tag_idx, tag_idx ∈ dom (project_tags config) →
             (tag_idx ≤ max_tag_index config)%Z.

Definition creates_or_removes (r : request) : Prop :=
  match r with
  | CreateProjectTag _ _ | RemoveProjectTag _ _ => True
  | EditProjectTag _ _ _ => False
  end.

(** ** TwoPositionsRepCounter *)

Inductive RepCounterTag : Type :=
  | waiting_pos0
  | armed_pos0.

Record RepCounterState : Type := {
  tag : RepCounterTag;
  count : Z
}.

Record CounterConfig : Type := {
  L0 : nat;
  L1 : nat;
  T0 : Q;
  T1 : Q
}.

Definition counter_start : RepCounterState :=
  {| tag := waiting_pos0; count := 0 |}.

(** [probabilities[L] >= T]; [None] when the vector has no index [L]. *)
Definition crosses (probabilities : list Q) (L : nat) (T : Q) : option bool :=
  p ← probabilities !! L; Some (Qle_bool T p).

(** Modelled from the spec: [sense.downstream_tasks.postprocess] is not
    part of the sources at hand, the script only constructs the counters.
    Section 4.3 of the specification gives the machine: from
    [waiting_pos0] the counter moves to [armed_pos0] when
    [probabilities[L0] >= T0]; from [armed_pos0] it moves back to
    [waiting_pos0] and increments the count when
    [probabilities[L1] >= T1]; nothing else changes the state. *)
Definition two_positions_apply (cfg : CounterConfig) (st : RepCounterState)
    (probabilities : list Q) : option RepCounterState :=
  match tag st with
  | waiting_pos0 =>
      crossed ← crosses probabilities (L0 cfg) (T0 cfg);
      Some (if crossed : bool
            then {| tag := armed_pos0; count := count st |}
            else st)
  | armed_pos0 =>
      crossed ← crosses probabilities (L1 cfg) (T1 cfg);
      Some (if crossed : bool
            then {| tag := waiting_pos0; count := (count st + 1)%Z |}
            else st)
  end.

(** One call of [apply] per probability vector, in order. *)
Fixpoint two_positions_run (cfg : CounterConfig) (st : RepCounterState)
    (inputs : list (list Q)) : option RepCounterState :=
  match inputs with
  | [] => Some st
  | probabilities :: rest =>
      st' ← two_positions_apply cfg st probabilities;
      two_positions_run cfg st' rest
  end.

Definition stays_below (L : nat) (T : Q) (probabilities : list Q) : Prop :=
  crosses probabilities L T = Some false.

Definition reaches (L : nat) (T : Q) (probabilities : list Q) : Prop :=
  crosses probabilities L T = Some true.

(** ** Sample inputs *)

(** Concrete checkpoints, with integers standing for the tensors. *)
Definition backbone_sample : gmap string Z :=
  <["layer1" := 1%Z]> (<["layer2" := 2%Z]> ∅).

Definition classifier_sample : gmap string Z :=
  <["layer2" := 20%Z]> (<["head" := 30%Z]> ∅).

(** Label metadata as the training script writes it, and a file in which
    two labels share an index. *)
Definition class2int_sample : list (string * Z) :=
  [ ("forearm_passing_position_1", 0%Z);
    ("forearm_passing_position_2", 1%Z);
    ("background", 2%Z) ].

Definition class2int_clash : list (string * Z) :=
  [ ("a", 0%Z); ("b", 0%Z) ].

(** A run of the script with only [--custom_classifier=clf] given, on a
    file system that holds the sample checkpoints and label file. *)
Definition args_sample : Args :=
  {| arg_custom_classifier := Some "clf";
     arg_camera_id := None;
     arg_path_in := None;
     arg_path_out := None;
     arg_title := None;
     arg_use_gpu := false |}.

Definition path_join_sample (a b : string) : string :=
  String.append a (String.append "/" b).

Definition load_weights_sample (path : string) : option (gmap string Z) :=
  if String.eqb path "resources/backbone/strided_inflated_efficientnet.ckpt"
  then Some backbone_sample
  else if String.eqb path "clf/classifier.checkpoint"
  then Some classifier_sample
  else None.

Definition load_label2int_sample (path : string) : option (list (string * Z)) :=
  if String.eqb path "clf/label2int.json" then Some class2int_sample else None.

(** A project with two tags and two classes, and the requests of a short
    session on it. *)
Definition config_sample : Config :=
  {| project_tags := <[1%Z := "ball"]> (<[2%Z := "net"]> ∅);
     max_tag_index := 2;
     classes := <["forearm_pass" := {[1%Z; 2%Z]}]> (<["background" := {[2%Z]}]> ∅) |}.

Definition store_sample : Store :=
  <["/projects/volleyball" := config_sample]> ∅.

Definition lookup_project_path_sample (project : string) : option string :=
  if String.eqb project "volleyball" then Some "/projects/volleyball" else None.

Definition unquote_sample (project : string) : string := project.

Definition form_sample : gmap string string := <["newTagName" := "serve"]> ∅.

(** The first counter of the script, thresholds [0.1] and [0.05], on the
    indices that [class2int_sample] gives its two positions; and
    probability vectors over the three labels. *)
Definition forearm_counter : CounterConfig :=
  {| L0 := 0; L1 := 1; T0 := 1 # 10; T1 := 5 # 100 |}.

Definition only_position2 : list Q := [0; 9 # 10; 1 # 10]%Q.
Definition only_position1 : list Q := [8 # 10; 0; 2 # 10]%Q.
Definition only_background : list Q := [0; 0; 1]%Q.

(** Checkpoints with two fine-tuned layers, and a classifier checkpoint
    without any. *)
Definition backbone_wide : gmap string Z :=
  <["conv1" := 1%Z]> (<["conv2" := 2%Z]> (<["conv3" := 3%Z]> ∅)).

Definition classifier_wide : gmap string Z :=
  <["conv3" := 30%Z]> (<["conv2" := 20%Z]> (<["head" := 40%Z]> ∅)).

Definition classifier_head_only : gmap string Z := <["head" := 30%Z]> ∅.

(** A label file in which the first and the third label share an index,
    and a run in which the options are given with empty values. *)
Definition class2int_shared : list (string * Z) :=
  [ ("a", 0%Z); ("b", 1%Z); ("c", 0%Z); ("d", 2%Z) ].

Definition args_empty_values : Args :=
  {| arg_custom_classifier := Some "clf";
     arg_camera_id := Some EmptyString;
     arg_path_in := Some EmptyString;
     arg_path_out := Some EmptyString;
     arg_title := Some EmptyString;
     arg_use_gpu := true |}.

(** ** Documents and requests, for the properties of the handlers *)

(** Every tag id that a class refers to is a tag of the project. *)
Definition classes_refer_to_tags (config : Config) : Prop :=
  ∀ class_label tags, classes config !! class_label = Some tags →
                      tags ⊆ dom (project_tags config).

(** The [<string:project>] part of the URL of a request. *)
Definition request_project (r : request) : string :=
  match r with
  | CreateProjectTag project _
  | RemoveProjectTag project _
  | EditProjectTag project _ _ => project
  end.

(** The document a handler writes when it finds [config] and does not
    raise: the three bodies between [load_project_config] and
    [write_project_config], side by side. *)
Definition written_by (r : request) (config : Config) : option Config :=
  match r with
  | CreateProjectTag _ data =>
      tag_name ← data !! "newTagName";
      Some {| project_tags :=
                <[(max_tag_index config + 1)%Z := tag_name]> (project_tags config);
              max_tag_index := (max_tag_index config + 1)%Z;
              classes := classes config |}
  | RemoveProjectTag _ tag_idx =>
      _ ← project_tags config !! tag_idx;
      Some {| project_tags := delete tag_idx (project_tags config);
              max_tag_index := max_tag_index config;
              classes := remove_from_class tag_idx <$> classes config |}
  | EditProjectTag _ tag_idx data =>
      new_tag_name ← data !! "newTagName";
      Some {| project_tags := <[tag_idx := new_tag_name]> (project_tags config);
              max_tag_index := max_tag_index config;
              classes := classes config |}
  end.

(** An edit request names a tag that the document has. *)
Definition edits_known_tag (r : request) (config : Config) : Prop :=
  match r with
  | EditProjectTag _ tag_idx _ => is_Some (project_tags config !! tag_idx)
  | _ => True
  end.

(** A second form with another tag name, and a second project. *)
Definition form_other : gmap string string := <["newTagName" := "dig"]> ∅.

Definition store_two_projects : Store :=
  <["/projects/tennis" :=
      {| project_tags := ∅; max_tag_index := 0; classes := ∅ |}]> store_sample.

Definition form_ball : gmap string string := <["newTagName" := "ball"]> ∅.

Definition lookup_two_projects (project : string) : option string :=
  if String.eqb project "volleyball" then Some "/projects/volleyball"
  else if String.eqb project "tennis" then Some "/projects/tennis"
  else None.

(** * Properties *)

(** ** Checkpoint merge *)
Section CheckpointFacts.
Context {W : Type}.
Implicit Types (checkpoint classifier : gmap string W) (keys : list string).

Lemma dict_pop_Some key classifier v :
  classifier !! key = Some v →
  dict_pop key classifier = Some (v, delete key classifier).
Proof. unfold dict_pop. by intros ->. Qed.

(** The loop over any duplicate-free list of keys of the classifier
    succeeds, and its result is described key by key. *)
Lemma merge_loop_lookup keys : ∀ checkpoint classifier,
  NoDup keys →
  (∀ key, key ∈ keys → is_Some (classifier !! key)) →
  ∃ merged left_over,
    merge_loop keys checkpoint classifier = Some (merged, left_over)
    ∧ (∀ key, merged !! key =
              if decide (key ∈ keys) then classifier !! key
              else checkpoint !! key)
    ∧ (∀ key, left_over !! key =
              if decide (key ∈ keys) then None else classifier !! key).
Proof.
  induction keys as [|k rest IH]; intros checkpoint classifier Hnd Hin.
  - exists checkpoint, classifier. split_and!; [done | |];
      intros key; rewrite decide_False; auto using not_elem_of_nil.
  - apply NoDup_cons in Hnd as [Hk Hnd].
    destruct (Hin k) as [v Hv]; [left |].
    destruct (IH (<[k := v]> checkpoint) (delete k classifier) Hnd)
      as (merged & left_over & Hrun & Hm & Hl).
    { intros key Hkey. rewrite lookup_delete_ne; [| by intros ->].
      apply Hin. by right. }
    exists merged, left_over. split_and!.
    + simpl. by rewrite (dict_pop_Some _ _ _ Hv).
    + intros key. rewrite Hm.
      destruct (decide (key = k)) as [->|Hne].
      * rewrite decide_False by done. rewrite decide_True by left.
        by rewrite lookup_insert_eq.
      * destruct (decide (key ∈ rest)) as [Hr|Hr].
        -- rewrite decide_True by (by right). by rewrite lookup_delete_ne.
        -- rewrite decide_False by (by intros [?|?]%elem_of_cons).
           by rewrite lookup_insert_ne.
    + intros key. rewrite Hl.
      destruct (decide (key = k)) as [->|Hne].
      * rewrite decide_False by done. rewrite decide_True by left.
        by rewrite lookup_delete_eq.
      * destruct (decide (key ∈ rest)) as [Hr|Hr].
        -- by rewrite decide_True by (by right).
        -- rewrite decide_False by (by intros [?|?]%elem_of_cons).
           by rewrite lookup_delete_ne.
Qed.

(** The merge never raises: every key the loop pops is a key of the
    classifier. Its result, key by key. *)
Lemma merge_finetuned_lookup checkpoint classifier :
  ∃ merged left_over,
    merge_finetuned checkpoint classifier = Some (merged, left_over)
    ∧ (∀ key, merged !! key =
              if decide (key ∈ name_finetuned_layers checkpoint classifier)
              then classifier !! key else checkpoint !! key)
    ∧ (∀ key, left_over !! key =
              if decide (key ∈ name_finetuned_layers checkpoint classifier)
              then None else classifier !! key).
Proof.
  destruct (merge_loop_lookup
              (elements (name_finetuned_layers checkpoint classifier))
              checkpoint classifier)
    as (merged & left_over & Hrun & Hm & Hl).
  - apply NoDup_elements.
  - intros key Hk%elem_of_elements. unfold name_finetuned_layers in Hk.
    apply elem_of_dom. set_solver.
  - exists merged, left_over. split_and!; [done | |]; intros key.
    + rewrite Hm. by repeat case_decide; set_solver.
    + rewrite Hl. by repeat case_decide; set_solver.
Qed.

(** The order in which the Python set is iterated does not matter. *)
Lemma merge_loop_any_order keys checkpoint classifier :
  NoDup keys →
  (∀ key, key ∈ keys ↔ key ∈ name_finetuned_layers checkpoint classifier) →
  merge_loop keys checkpoint classifier = merge_finetuned checkpoint classifier.
Proof.
  intros Hnd Hkeys.
  destruct (merge_loop_lookup keys checkpoint classifier Hnd)
    as (m1 & l1 & -> & Hm1 & Hl1).
  { intros key Hk%Hkeys. unfold name_finetuned_layers in Hk.
    apply elem_of_dom. set_solver. }
  destruct (merge_finetuned_lookup checkpoint classifier)
    as (m2 & l2 & -> & Hm2 & Hl2).
  f_equal. f_equal; apply map_eq; intros key.
  - rewrite Hm1, Hm2. by repeat case_decide; naive_solver.
  - rewrite Hl1, Hl2. by repeat case_decide; naive_solver.
Qed.

(** C1. Checkpoint merge: the merge succeeds, and for every key that the
    backbone and the classifier have in common the merged backbone holds
    the value the classifier had for it, while the classifier no longer
    has the key. *)
Theorem merge_moves_finetuned_layers checkpoint classifier key :
  key ∈ name_finetuned_layers checkpoint classifier →
  ∃ merged left_over v,
    merge_finetuned checkpoint classifier = Some (merged, left_over)
    ∧ classifier !! key = Some v
    ∧ merged !! key = Some v
    ∧ left_over !! key = None.
Proof.
  intros Hkey.
  destruct (merge_finetuned_lookup checkpoint classifier)
    as (merged & left_over & Hrun & Hm & Hl).
  assert (is_Some (classifier !! key)) as [v Hv].
  { apply elem_of_dom. set_solver. }
  exists merged, left_over, v. split_and!; [done | done | |].
  - rewrite Hm. by rewrite decide_True.
  - rewrite Hl. by rewrite decide_True.
Qed.

(** The example of the specification: backbone [{layer1: w1, layer2: w2}]
    and classifier [{layer2: w2f, head: wh}]. *)
Lemma merge_finetuned_example (w1 w2 w2f wh : W) :
  merge_finetuned
    (<["layer1" := w1]> (<["layer2" := w2]> ∅))
    (<["layer2" := w2f]> (<["head" := wh]> ∅))
  = Some (<["layer1" := w1]> (<["layer2" := w2f]> ∅), <["head" := wh]> ∅).
Proof.
  destruct (merge_finetuned_lookup
              (<["layer1" := w1]> (<["layer2" := w2]> (∅ : gmap string W)))
              (<["layer2" := w2f]> (<["head" := wh]> ∅)))
    as (merged & left_over & -> & Hm & Hl).
  assert (name_finetuned_layers
            (<["layer1" := w1]> (<["layer2" := w2]> (∅ : gmap string W)))
            (<["layer2" := w2f]> (<["head" := wh]> ∅)) = {["layer2"]}) as Hset.
  { unfold name_finetuned_layers. rewrite !dom_insert_L, !dom_empty_L.
    set_solver. }
  rewrite Hset in Hm, Hl.
  f_equal. f_equal; apply map_eq; intros key.
  - rewrite Hm. case_decide as Hk.
    + apply elem_of_singleton in Hk as ->. by simplify_map_eq.
    + rewrite not_elem_of_singleton in Hk.
      destruct (decide (key = "layer1")) as [->|?]; by simplify_map_eq.
  - rewrite Hl. case_decide as Hk.
    + apply elem_of_singleton in Hk as ->. by simplify_map_eq.
    + rewrite not_elem_of_singleton in Hk. by simplify_map_eq.
Qed.

(** C2. Frame property of the merge: the merge succeeds, every key of
    the backbone is still a key of the merged backbone, and outside the
    common keys both dictionaries are as they were. *)
Theorem merge_frame checkpoint classifier :
  ∃ merged left_over,
    merge_finetuned checkpoint classifier = Some (merged, left_over)
    ∧ (∀ key, key ∈ dom checkpoint → key ∈ dom merged)
    ∧ (∀ key, key ∉ name_finetuned_layers checkpoint classifier →
              merged !! key = checkpoint !! key)
    ∧ (∀ key, key ∉ name_finetuned_layers checkpoint classifier →
              left_over !! key = classifier !! key).
Proof.
  destruct (merge_finetuned_lookup checkpoint classifier)
    as (merged & left_over & Hrun & Hm & Hl).
  exists merged, left_over. split_and!; [done | | |].
  - intros key Hb. apply elem_of_dom. rewrite Hm. case_decide as Hk.
    + apply elem_of_dom. set_solver.
    + by apply elem_of_dom.
  - intros key Hk. rewrite Hm. by rewrite decide_False.
  - intros key Hk. rewrite Hl. by rewrite decide_False.
Qed.
End CheckpointFacts.

Lemma merge_moves_finetuned_layers_witness :
  "layer2" ∈ name_finetuned_layers backbone_sample classifier_sample
  ∧ ∃ merged left_over v,
      merge_finetuned backbone_sample classifier_sample = Some (merged, left_over)
      ∧ classifier_sample !! "layer2" = Some v
      ∧ merged !! "layer2" = Some v
      ∧ left_over !! "layer2" = None.
Proof.
  assert ("layer2" ∈ name_finetuned_layers backbone_sample classifier_sample)
    as Hin by (apply (bool_decide_unpack _); vm_compute; exact I).
  split; [exact Hin |].
  exact (merge_moves_finetuned_layers backbone_sample classifier_sample "layer2" Hin).
Defined.

Lemma merge_frame_witness :
  ∃ merged left_over,
    merge_finetuned backbone_sample classifier_sample = Some (merged, left_over)
    ∧ (∀ key, key ∈ dom backbone_sample → key ∈ dom merged)
    ∧ (∀ key, key ∉ name_finetuned_layers backbone_sample classifier_sample →
              merged !! key = backbone_sample !! key)
    ∧ (∀ key, key ∉ name_finetuned_layers backbone_sample classifier_sample →
              left_over !! key = classifier_sample !! key).
Proof. exact (merge_frame backbone_sample classifier_sample). Defined.

(** ** Label maps *)
Section PyDictFacts.
Context {K V : Type} `{EqDecision K}.
Implicit Types (d : list (K * V)).

Lemma get_set d (k j : K) (v : V) :
  PyDict.get (PyDict.set d k v) j
  = if decide (j = k) then Some v else PyDict.get d j.
Proof.
  induction d as [|[k' v'] rest IH]; simpl.
  - by repeat case_decide.
  - destruct (decide (k = k')) as [->|Hne]; simpl.
    + by repeat case_decide; simplify_eq.
    + rewrite IH. by repeat case_decide; simplify_eq.
Qed.

Lemma get_Some_elem_of d (k : K) (v : V) :
  PyDict.get d k = Some v → (k, v) ∈ d.
Proof.
  induction d as [|[k' v'] rest IH]; simpl; [done |].
  case_decide; [intros [= ->]; subst; left | intros ?; right; auto].
Qed.

Lemma elem_of_get_Some d (k : K) (v : V) :
  PyDict.wf d → (k, v) ∈ d → PyDict.get d k = Some v.
Proof.
  unfold PyDict.wf, PyDict.keys.
  induction d as [|[k' v'] rest IH]; simpl.
  - by intros _ ?%elem_of_nil.
  - intros [Hnin Hnd]%NoDup_cons [Heq|Hin]%elem_of_cons.
    + simplify_eq. by rewrite decide_True.
    + rewrite decide_False; [by apply IH |].
      intros ->. apply Hnin. by apply (list_elem_of_fmap_2 fst) in Hin.
Qed.
End PyDictFacts.

Section LabelFacts.
Implicit Types (class2int : list (string * Z)) (s : string) (i : Z).

(** One more item in the label file is one more assignment. *)
Lemma INT2LAB_snoc class2int s i :
  INT2LAB (class2int ++ [(s, i)]) = PyDict.set (INT2LAB class2int) i s.
Proof. unfold INT2LAB, PyDict.items. by rewrite foldl_app. Qed.

(** Every entry of the inverse comes from an item of the label file. *)
Lemma INT2LAB_elem_of class2int i s :
  PyDict.get (INT2LAB class2int) i = Some s → (s, i) ∈ class2int.
Proof.
  revert i s. induction class2int as [|[s' i'] rest IH] using rev_ind;
    intros i s.
  - done.
  - rewrite INT2LAB_snoc, get_set. case_decide as Hi.
    + intros [= ->]. subst. apply elem_of_app. right. left.
    + intros Hget. apply elem_of_app. left. by apply IH.
Qed.

(** Every index of the label file is a key of the inverse. *)
Lemma INT2LAB_is_Some class2int s i :
  (s, i) ∈ class2int → is_Some (PyDict.get (INT2LAB class2int) i).
Proof.
  induction class2int as [|[s' i'] rest IH] using rev_ind.
  - by intros ?%elem_of_nil.
  - rewrite INT2LAB_snoc, get_set. intros [Hin|Hin]%elem_of_app.
    + case_decide; [done | by apply IH].
    + apply list_elem_of_singleton in Hin. simplify_eq.
      by rewrite decide_True.
Qed.

(** The inverse always maps back: holds for every label file. *)
Lemma INT2LAB_sound class2int i s :
  PyDict.wf class2int →
  PyDict.get (INT2LAB class2int) i = Some s →
  PyDict.get class2int s = Some i.
Proof. intros Hwf Hget. by apply elem_of_get_Some, INT2LAB_elem_of. Qed.

(** C3 (amended). For every label file, each entry of [INT2LAB] maps
    back: the label stored for an index has that index in [class2int]. When
    moreover no two labels of the file share an index, each entry of
    [class2int] maps back as well, so that the two dictionaries are inverse
    to each other. *)
Theorem label_maps_inverse class2int :
  PyDict.wf class2int →
  (∀ i s, PyDict.get (INT2LAB class2int) i = Some s →
          PyDict.get class2int s = Some i)
  ∧ ((∀ s1 s2 i, PyDict.get class2int s1 = Some i →
                 PyDict.get class2int s2 = Some i → s1 = s2) →
     ∀ s i, PyDict.get class2int s = Some i →
            PyDict.get (INT2LAB class2int) i = Some s).
Proof.
  intros Hwf. split.
  - intros i s. by apply INT2LAB_sound.
  - intros Hinj s i Hget.
    destruct (INT2LAB_is_Some class2int s i) as [s' Hs'].
    { by apply get_Some_elem_of. }
    rewrite Hs'. f_equal.
    apply (Hinj s' s i); [by apply INT2LAB_sound | done].
Qed.
End LabelFacts.

Lemma label_maps_inverse_witness :
  (∀ i s, PyDict.get (INT2LAB class2int_sample) i = Some s →
          PyDict.get class2int_sample s = Some i)
  ∧ (∀ s i, PyDict.get class2int_sample s = Some i →
            PyDict.get (INT2LAB class2int_sample) i = Some s).
Proof.
  destruct (label_maps_inverse class2int_sample) as [Hback Hforth].
  - unfold PyDict.wf. apply (bool_decide_unpack _). vm_compute. exact I.
  - split; [exact Hback |]. apply Hforth.
    intros s1 s2 i. unfold class2int_sample. simpl.
    repeat case_decide; congruence.
Defined.

(** C3 (as stated) fails: in [{"a": 0, "b": 0}] the label ["a"] has index
  [0], and the inverse maps [0] to ["b"]. *)
Lemma label_maps_not_inverse_on_shared_index :
PyDict.wf class2int_clash
∧ PyDict.get class2int_clash "a" = Some 0%Z
∧ PyDict.get (INT2LAB class2int_clash) 0%Z = Some "b"
∧ ¬ (∀ s i, PyDict.get class2int_clash s = Some i →
            PyDict.get (INT2LAB class2int_clash) i = Some s).
Proof.
split_and!.
- unfold PyDict.wf. apply (bool_decide_unpack _). vm_compute. exact I.
- reflexivity.
- reflexivity.
- intros Hall. specialize (Hall "a" 0%Z eq_refl). discriminate Hall.
Qed.

(** ** The entry point *)
Section EntryPointFacts.
Context {W : Type}.
Variable load_weights : string → option (gmap string W).
Variable load_label2int : string → option (list (string * Z)).
Variable path_join : string → string → string.
Variable feature_dim : nat.

Abbreviation files_present := (files_present load_weights load_label2int path_join).
Abbreviation main := (main load_weights load_label2int path_join feature_dim).

Lemma py_or_given (s : string) (default : pyval) :
  s ≠ EmptyString → py_or (arg_value (Some s)) default = PyStr s.
Proof.
  intros Hs. unfold py_or. simpl.
  by apply String.eqb_neq in Hs as ->.
Qed.

Lemma py_or_missing (default : pyval) :
  py_or (arg_value None) default = default.
Proof. reflexivity. Qed.

(** With its files in place the script reaches the construction of the
    controller; the controller it builds, field by field. *)
Lemma main_returns args directory checkpoint classifier class2int :
  files_present args directory checkpoint classifier class2int →
  ∃ merged left_over,
    merge_finetuned checkpoint classifier = Some (merged, left_over)
    ∧ main args
      = Some
          {| neural_network :=
               {| pipe_feature_extractor := {| fe_state_dict := merged |};
                  pipe_feature_converter :=
                    {| num_in := feature_dim;
                       num_out := PyDict.len (INT2LAB class2int);
                       lr_state_dict := left_over |} |};
             post_processors := postprocessor class2int;
             results_display :=
               {| title := py_or (arg_value (arg_title args)) PyNone;
                  display_ops := display_ops_of_script;
                  border_size := 100 |};
             callbacks := [];
             camera_id := py_or (arg_value (arg_camera_id args)) (PyInt 0);
             path_in := py_or (arg_value (arg_path_in args)) PyNone;
             path_out := py_or (arg_value (arg_path_out args)) PyNone;
             use_gpu := arg_use_gpu args |}.
Proof.
  intros (Hdir & Hne & Hb & Hc & Hl).
  destruct (merge_finetuned_lookup checkpoint classifier)
    as (merged & left_over & Hmerge & _ & _).
  exists merged, left_over. split; [done |].
  unfold main. rewrite Hdir, (py_or_given _ _ Hne), Hb. simpl.
  rewrite Hc. simpl. rewrite Hmerge. simpl. rewrite Hl. reflexivity.
Qed.

(** C7. Classifier dimensioning: the classifier is built with the
    feature dimension of the backbone as input dimension and the number
    of entries of [INT2LAB] as output dimension, and it is loaded with
    what the merge left of the classifier checkpoint, that is, the
    entries whose key is not a key of the backbone. *)
Theorem classifier_dimensioning args directory checkpoint classifier class2int :
  files_present args directory checkpoint classifier class2int →
  ∃ controller merged left_over,
    main args = Some controller
    ∧ merge_finetuned checkpoint classifier = Some (merged, left_over)
    ∧ num_in (pipe_feature_converter (neural_network controller)) = feature_dim
    ∧ num_out (pipe_feature_converter (neural_network controller))
      = PyDict.len (INT2LAB class2int)
    ∧ lr_state_dict (pipe_feature_converter (neural_network controller))
      = left_over
    ∧ left_over = filter (λ kv, kv.1 ∉ dom checkpoint) classifier.
Proof.
  intros Hfiles.
  destruct (main_returns _ _ _ _ _ Hfiles) as (merged & left_over & Hmerge & Hmain).
  eexists _, merged, left_over. split_and!; [exact Hmain | done.. |].
  destruct (merge_finetuned_lookup checkpoint classifier)
    as (merged' & left_over' & Hmerge' & _ & Hl).
  rewrite Hmerge in Hmerge'. simplify_eq.
  apply map_eq. intros key. rewrite Hl.
  destruct (classifier !! key) as [v|] eqn:Hv.
  - case_decide as Hk.
    + symmetry. apply map_lookup_filter_None. right. intros v' _. simpl.
      unfold name_finetuned_layers in Hk. set_solver.
    + symmetry. apply map_lookup_filter_Some. split; [done |]. simpl.
      intros Hb. apply Hk. unfold name_finetuned_layers.
      apply elem_of_intersection. split; [done |]. by apply elem_of_dom.
  - case_decide; symmetry; apply map_lookup_filter_None; by left.
Qed.

(** C8. Defaults of the command line: a run whose files are in place
    builds a controller in which a missing [--camera_id] is [0], a
    missing [--path_in] is [None], a missing [--path_out] is [None], and
    a missing [--title] is [None] in the display the controller is given;
    a non-empty value that is given arrives as it is. *)
Theorem cli_defaults args directory checkpoint classifier class2int :
  files_present args directory checkpoint classifier class2int →
  ∃ controller,
    main args = Some controller
    ∧ (arg_camera_id args = None → camera_id controller = PyInt 0)
    ∧ (arg_path_in args = None → path_in controller = PyNone)
    ∧ (arg_path_out args = None → path_out controller = PyNone)
    ∧ (arg_title args = None → title (results_display controller) = PyNone)
    ∧ (∀ s, s ≠ EmptyString → arg_camera_id args = Some s →
            camera_id controller = PyStr s)
    ∧ (∀ s, s ≠ EmptyString → arg_path_in args = Some s → path_in controller = PyStr s)
    ∧ (∀ s, s ≠ EmptyString → arg_path_out args = Some s →
            path_out controller = PyStr s)
    ∧ (∀ s, s ≠ EmptyString → arg_title args = Some s →
            title (results_display controller) = PyStr s)
    ∧ use_gpu controller = arg_use_gpu args.
Proof.
  intros Hfiles.
  destruct (main_returns _ _ _ _ _ Hfiles) as (merged & left_over & _ & Hmain).
  eexists. split; [exact Hmain |]. simpl.
  split_and!; try (by intros ->); try done;
    intros s Hs ->; by apply py_or_given.
Qed.
End EntryPointFacts.

Lemma files_present_sample :
files_present load_weights_sample load_label2int_sample path_join_sample
  args_sample "clf" backbone_sample classifier_sample class2int_sample.
Proof. repeat split; try reflexivity. discriminate. Defined.

Lemma classifier_dimensioning_witness :
∃ controller merged left_over,
  main load_weights_sample load_label2int_sample path_join_sample 1280 args_sample
  = Some controller
  ∧ merge_finetuned backbone_sample classifier_sample = Some (merged, left_over)
  ∧ num_in (pipe_feature_converter (neural_network controller)) = 1280
  ∧ num_out (pipe_feature_converter (neural_network controller))
    = PyDict.len (INT2LAB class2int_sample)
  ∧ lr_state_dict (pipe_feature_converter (neural_network controller)) = left_over
  ∧ left_over = filter (λ kv, kv.1 ∉ dom backbone_sample) classifier_sample.
Proof.
apply (classifier_dimensioning load_weights_sample load_label2int_sample
         path_join_sample 1280 args_sample "clf").
exact files_present_sample.
Defined.

Lemma cli_defaults_witness :
∃ controller,
  main load_weights_sample load_label2int_sample path_join_sample 1280 args_sample
  = Some controller
  ∧ camera_id controller = PyInt 0
  ∧ path_in controller = PyNone
  ∧ path_out controller = PyNone
  ∧ title (results_display controller) = PyNone.
Proof.
destruct (cli_defaults load_weights_sample load_label2int_sample
            path_join_sample 1280 args_sample "clf"
            backbone_sample classifier_sample class2int_sample)
  as (controller & Hmain & Hcam & Hin & Hout & Htitle & _).
- exact files_present_sample.
- exists controller. repeat split; auto.
Defined.

(** ** Project tags *)
Section HandlerFacts.
Variable unquote : string → string.
Variable lookup_project_path : string → option string.

Abbreviation create_tag := (create_tag unquote lookup_project_path).
Abbreviation remove_tag := (remove_tag unquote lookup_project_path).
Abbreviation edit_tag := (edit_tag unquote lookup_project_path).
Abbreviation dispatch := (dispatch unquote lookup_project_path).
Abbreviation serve := (serve unquote lookup_project_path).
Abbreviation project_at := (project_at unquote lookup_project_path).

(** What each handler does, by cases on what it finds. *)
Lemma create_tag_run project data s :
  create_tag project data s =
  match lookup_project_path (unquote project) with
  | None => (inl ProjectNotFound, s)
  | Some path =>
      match s !! path with
      | None => (inl ProjectNotFound, s)
      | Some config =>
          match data !! "newTagName" with
          | None => (inl BadRequestKeyError, s)
          | Some tag_name =>
              (inr (Redirect "project_details" (unquote project)),
               <[path :=
                   {| project_tags :=
                        <[(max_tag_index config + 1)%Z := tag_name]>
                          (project_tags config);
                      max_tag_index := (max_tag_index config + 1)%Z;
                      classes := classes config |}]> s)
          end
      end
  end.
Proof.
  unfold create_tag, bind, project_path, load_project_config, form_get,
    write_project_config, ret, raise.
  by repeat case_match; simplify_eq.
Qed.

Lemma remove_tag_run project tag_idx s :
  remove_tag project tag_idx s =
  match lookup_project_path (unquote project) with
  | None => (inl ProjectNotFound, s)
  | Some path =>
      match s !! path with
      | None => (inl ProjectNotFound, s)
      | Some config =>
          match project_tags config !! tag_idx with
          | None => (inl KeyError, s)
          | Some _ =>
              (inr (Redirect "project_details" (unquote project)),
               <[path :=
                   {| project_tags := delete tag_idx (project_tags config);
                      max_tag_index := max_tag_index config;
                      classes := remove_from_class tag_idx <$> classes config |}]> s)
          end
      end
  end.
Proof.
  unfold remove_tag, bind, project_path, load_project_config, dict_del,
    write_project_config, ret, raise.
  by repeat case_match; simplify_eq.
Qed.

Lemma edit_tag_run project tag_idx data s :
  edit_tag project tag_idx data s =
  match lookup_project_path (unquote project) with
  | None => (inl ProjectNotFound, s)
  | Some path =>
      match s !! path with
      | None => (inl ProjectNotFound, s)
      | Some config =>
          match data !! "newTagName" with
          | None => (inl BadRequestKeyError, s)
          | Some new_tag_name =>
              (inr (Redirect "project_details" (unquote project)),
               <[path :=
                   {| project_tags :=
                        <[tag_idx := new_tag_name]> (project_tags config);
                      max_tag_index := max_tag_index config;
                      classes := classes config |}]> s)
          end
      end
  end.
Proof.
  unfold edit_tag, bind, project_path, load_project_config, form_get,
    write_project_config, ret, raise.
  by repeat case_match; simplify_eq.
Qed.

Lemma remove_from_class_spec tag_idx (tags : gset Z) :
  remove_from_class tag_idx tags = tags ∖ {[tag_idx]}.
Proof. unfold remove_from_class. case_decide; set_solver. Qed.

(** On a list without repetitions the two forms of a tag set agree. *)
Lemma list_remove_NoDup tag_idx (tags : list Z) :
  NoDup tags →
  NoDup (list_remove tag_idx tags)
  ∧ list_to_set (list_remove tag_idx tags)
    =@{gset Z} list_to_set tags ∖ {[tag_idx]}.
Proof.
  induction 1 as [|t rest Ht Hrest [IHnd IHset]]; simpl.
  - split; [constructor | set_solver].
  - destruct (decide (tag_idx = t)) as [->|Hne]; simpl.
    + split; [done |].
      assert (t ∉ (list_to_set rest : gset Z)) by (by rewrite elem_of_list_to_set).
      set_solver.
    + split.
      * constructor; [|done].
        intros Hin. apply Ht.
        assert (t ∈ (list_to_set (list_remove tag_idx rest) : gset Z)) as Hs
          by (by apply elem_of_list_to_set).
        rewrite IHset in Hs.
        apply elem_of_difference in Hs as [Hs _].
        by apply elem_of_list_to_set in Hs.
      * rewrite IHset. set_solver.
Qed.

Lemma remove_from_class_list_spec tag_idx (tags : list Z) :
  NoDup tags →
  list_to_set (remove_from_class_list tag_idx tags)
  =@{gset Z} remove_from_class tag_idx (list_to_set tags).
Proof.
  intros Hnd. unfold remove_from_class_list, remove_from_class.
  destruct (decide (tag_idx ∈ tags)) as [Hin|Hnin].
  - rewrite decide_True by (by apply elem_of_list_to_set).
    by apply list_remove_NoDup.
  - by rewrite decide_False by (by rewrite elem_of_list_to_set).
Qed.

(** C6. Cascade delete: removing a tag that the project has succeeds and
    writes a configuration in which the tag is gone from [project_tags],
    every other tag is as before, the classes are the same, and every
    class's tag set has lost the tag and nothing else. *)
Theorem remove_tag_cascades s project path config tag_idx :
  project_at s project path config →
  is_Some (project_tags config !! tag_idx) →
  ∃ written,
    remove_tag project tag_idx s
    = (inr (Redirect "project_details" (unquote project)), <[path := written]> s)
    ∧ project_tags written = delete tag_idx (project_tags config)
    ∧ dom (classes written) = dom (classes config)
    ∧ (∀ class_label tags, classes config !! class_label = Some tags →
         ∃ tags', classes written !! class_label = Some tags'
                  ∧ (tag_idx ∉ tags')
                  ∧ (∀ other, other ≠ tag_idx →
                              (other ∈ tags' ↔ other ∈ tags))).
Proof.
  intros [Hpath Hconfig] [name Hname].
  eexists. split.
  { rewrite remove_tag_run, Hpath, Hconfig, Hname. reflexivity. }
  simpl. split_and!; [done | apply dom_fmap_L |].
  intros class_label tags Htags.
  exists (remove_from_class tag_idx tags). split_and!.
  - by rewrite lookup_fmap, Htags.
  - rewrite remove_from_class_spec. set_solver.
  - intros other Hother. rewrite remove_from_class_spec. set_solver.
Qed.

(** C9. Frame property of [edit_tag]: with the field [newTagName]
    submitted the handler succeeds, and the configuration it writes differs
    from the one it loaded only in the name stored for [tag_idx]. *)
Theorem edit_tag_frame s project path config tag_idx data new_tag_name :
  project_at s project path config →
  data !! "newTagName" = Some new_tag_name →
  ∃ written,
    edit_tag project tag_idx data s
    = (inr (Redirect "project_details" (unquote project)), <[path := written]> s)
    ∧ project_tags written !! tag_idx = Some new_tag_name
    ∧ (∀ other, other ≠ tag_idx →
         project_tags written !! other = project_tags config !! other)
    ∧ max_tag_index written = max_tag_index config
    ∧ classes written = classes config.
Proof.
  intros [Hpath Hconfig] Hdata.
  eexists. split.
  { rewrite edit_tag_run, Hpath, Hconfig, Hdata. reflexivity. }
  simpl. split_and!; [by rewrite lookup_insert_eq | | done | done].
  intros other Hother. by rewrite lookup_insert_ne.
Qed.

(** C10. Error atomicity of [remove_tag]: for a tag the project does not
    have, the handler raises [KeyError] and the store is as it was. *)
Theorem remove_tag_missing_is_atomic s project path config tag_idx :
  project_at s project path config →
  project_tags config !! tag_idx = None →
  remove_tag project tag_idx s = (inl KeyError, s).
Proof.
  intros [Hpath Hconfig] Hnone.
  by rewrite remove_tag_run, Hpath, Hconfig, Hnone.
Qed.

(** *** Allocation of tag ids *)

(** Case analysis shared by the three handlers: the project of the request
    resolves to a path [p] that holds a configuration [c], or the handler
    raises and the goal is about the store as it was. *)
Ltac resolve_project p c Hc :=
  match goal with
  | |- context [lookup_project_path (unquote ?project)] =>
      destruct (lookup_project_path (unquote project)) as [p|]; [|done];
      match goal with
      | |- context [?s !! p] => destruct (s !! p) as [c|] eqn:Hc; [|done]
      end
  end.

(** The handler wrote at [p]: either [p] is the path under consideration,
    or the write is elsewhere and the goal is about the store as it was. *)
Ltac written_at p path :=
  destruct (decide (p = path)) as [->|?]; [|by rewrite lookup_insert_ne];
  rewrite lookup_insert_eq; simplify_eq.

Lemma serve_app before after s :
  serve (before ++ after) s = serve after (serve before s).
Proof. unfold serve. by rewrite foldl_app. Qed.

Lemma serve_snoc before r s :
  serve (before ++ [r]) s = (dispatch r (serve before s)).2.
Proof. by rewrite serve_app. Qed.

(** No request lowers [max_tag_index], whatever project it addresses and
    whether it succeeds or raises. *)
Lemma dispatch_max_monotone r s path config :
  s !! path = Some config →
  ∃ config', (dispatch r s).2 !! path = Some config'
             ∧ (max_tag_index config ≤ max_tag_index config')%Z.
Proof.
  intros Hconfig.
  assert (∃ config', s !! path = Some config'
                     ∧ (max_tag_index config ≤ max_tag_index config')%Z)
    as Hsame by (exists config; split; [done | lia]).
  destruct r as [project data|project tag_idx|project tag_idx data]; simpl.
  - rewrite create_tag_run.
    resolve_project p c Hc.
    destruct (data !! "newTagName") as [tag_name|]; [|done]. simpl.
    written_at p path.
    eexists. split; [done | simpl; lia].
  - rewrite remove_tag_run.
    resolve_project p c Hc.
    destruct (project_tags c !! tag_idx); [|done]. simpl.
    written_at p path.
    eexists. split; [done | simpl; lia].
  - rewrite edit_tag_run.
    resolve_project p c Hc.
    destruct (data !! "newTagName") as [new_tag_name|]; [|done]. simpl.
    written_at p path.
    eexists. split; [done | simpl; lia].
Qed.

Lemma serve_max_monotone rs : ∀ s path config,
  s !! path = Some config →
  ∃ config', serve rs s !! path = Some config'
             ∧ (max_tag_index config ≤ max_tag_index config')%Z.
Proof.
  induction rs as [|r rs IH]; intros s path config Hconfig.
  - exists config. split; [done | lia].
  - destruct (dispatch_max_monotone r s path config Hconfig) as (c1 & Hc1 & Hle1).
    destruct (IH _ _ _ Hc1) as (c2 & Hc2 & Hle2).
    exists c2. split; [done | lia].
Qed.

(** A creation or removal keeps the tags of a configuration bounded by
    its [max_tag_index]. *)
Lemma dispatch_keeps_bounded r s path config :
  creates_or_removes r →
  s !! path = Some config →
  tags_bounded config →
  ∃ config', (dispatch r s).2 !! path = Some config' ∧ tags_bounded config'.
Proof.
  intros Hr Hconfig Hbounded.
  assert (∃ config', s !! path = Some config' ∧ tags_bounded config')
    as Hsame by (by exists config).
  destruct r as [project data|project tag_idx|]; [| |done]; simpl.
  - rewrite create_tag_run.
    resolve_project p c Hc.
    destruct (data !! "newTagName") as [tag_name|]; [|done]. simpl.
    written_at p path.
    eexists. split; [done |].
    intros j. simpl. rewrite dom_insert_L.
    intros [->%elem_of_singleton|Hj]%elem_of_union; [lia |].
    specialize (Hbounded j Hj). lia.
  - rewrite remove_tag_run.
    resolve_project p c Hc.
    destruct (project_tags c !! tag_idx); [|done]. simpl.
    written_at p path.
    eexists. split; [done |].
    intros j. simpl. rewrite dom_delete_L. intros Hj. apply Hbounded. set_solver.
Qed.

Lemma serve_keeps_bounded rs : ∀ s path config,
  Forall creates_or_removes rs →
  s !! path = Some config →
  tags_bounded config →
  ∃ config', serve rs s !! path = Some config' ∧ tags_bounded config'.
Proof.
  induction rs as [|r rs IH]; intros s path config Hrs Hconfig Hbounded.
  - by exists config.
  - apply Forall_cons in Hrs as [Hr Hrs].
    destruct (dispatch_keeps_bounded r s path config Hr Hconfig Hbounded)
      as (c1 & Hc1 & Hb1).
    by apply (IH _ _ c1).
Qed.

(** What a removal leaves at the path of its project: [max_tag_index] as
    it was and no tag [tag_idx], whether the tag was there or the handler
    raised. *)
Lemma remove_tag_at_path s project path config tag_idx :
  project_at s project path config →
  ∃ config', (remove_tag project tag_idx s).2 !! path = Some config'
             ∧ max_tag_index config' = max_tag_index config
             ∧ project_tags config' !! tag_idx = None.
Proof.
  intros [Hpath Hconfig]. rewrite remove_tag_run, Hpath, Hconfig.
  destruct (project_tags config !! tag_idx) eqn:Htag; simpl.
  - rewrite lookup_insert_eq. eexists. split_and!; [done | done |].
    simpl. apply lookup_delete_eq.
  - by exists config.
Qed.

Lemma create_tag_at_path s project path config data tag_name :
  project_at s project path config →
  data !! "newTagName" = Some tag_name →
  create_tag project data s
  = (inr (Redirect "project_details" (unquote project)),
     <[path :=
         {| project_tags :=
              <[(max_tag_index config + 1)%Z := tag_name]> (project_tags config);
            max_tag_index := (max_tag_index config + 1)%Z;
            classes := classes config |}]> s).
Proof.
  intros [Hpath Hconfig] Hdata.
  by rewrite create_tag_run, Hpath, Hconfig, Hdata.
Qed.

(** A tag of a bounded configuration that is removed never gets its id
    back from a later creation. *)
Lemma removed_id_is_below_later_ids s path config after project tag_idx :
  project_at s project path config →
  tags_bounded config →
  is_Some (project_tags config !! tag_idx) →
  ∃ later, serve after (remove_tag project tag_idx s).2 !! path = Some later
           ∧ (tag_idx < max_tag_index later + 1)%Z.
Proof.
  intros Hat Hbounded Htag.
  destruct (remove_tag_at_path s project path config tag_idx Hat)
    as (c1 & Hc1 & Hmax1 & _).
  destruct (serve_max_monotone after _ path c1 Hc1) as (c2 & Hc2 & Hle).
  exists c2. split; [done |].
  assert (tag_idx ≤ max_tag_index config)%Z; [|lia].
  by apply Hbounded, elem_of_dom.
Qed.

(** The ids that [create_tag] hands out. A creation allocates
    [max_tag_index + 1] and stores it as the new [max_tag_index]; no request
    served afterwards lowers [max_tag_index]; removing the tag leaves
    [max_tag_index] unchanged; hence a later creation, whatever was served
    in between, allocates an id above the one of the removed tag. *)
Theorem tag_ids_are_never_reused
    s path config project data tag_name middle project_r after
    project' data' tag_name' :
  project_at s project path config →
  data !! "newTagName" = Some tag_name →
  lookup_project_path (unquote project_r) = Some path →
  lookup_project_path (unquote project') = Some path →
  data' !! "newTagName" = Some tag_name' →
  let tag_idx := (max_tag_index config + 1)%Z in
  let s1 := (create_tag project data s).2 in
  let s2 := serve middle s1 in
  let s3 := (remove_tag project_r tag_idx s2).2 in
  let s4 := serve after s3 in
  let s5 := (create_tag project' data' s4).2 in
  ∃ c1 c2 c3 c4 c5,
    s1 !! path = Some c1
    ∧ project_tags c1 = <[tag_idx := tag_name]> (project_tags config)
    ∧ max_tag_index c1 = tag_idx
    ∧ s2 !! path = Some c2
    ∧ (max_tag_index c1 ≤ max_tag_index c2)%Z
    ∧ s3 !! path = Some c3
    ∧ max_tag_index c3 = max_tag_index c2
    ∧ project_tags c3 !! tag_idx = None
    ∧ s4 !! path = Some c4
    ∧ (max_tag_index c3 ≤ max_tag_index c4)%Z
    ∧ s5 !! path = Some c5
    ∧ project_tags c5
      = <[(max_tag_index c4 + 1)%Z := tag_name']> (project_tags c4)
    ∧ max_tag_index c5 = (max_tag_index c4 + 1)%Z
    ∧ (tag_idx < max_tag_index c5)%Z.
Proof.
  intros Hat Hdata Hr Hp' Hdata' tag_idx s1 s2 s3 s4 s5.
  assert (s1 !! path
          = Some {| project_tags := <[tag_idx := tag_name]> (project_tags config);
                    max_tag_index := tag_idx;
                    classes := classes config |}) as Hc1.
  { unfold s1. rewrite (create_tag_at_path _ _ _ _ _ _ Hat Hdata). simpl.
    by rewrite lookup_insert_eq. }
  destruct (serve_max_monotone middle s1 path _ Hc1) as (c2 & Hc2 & Hle2).
  destruct (remove_tag_at_path s2 project_r path c2 tag_idx)
    as (c3 & Hc3 & Hmax3 & Hgone); [done |].
  destruct (serve_max_monotone after s3 path _ Hc3) as (c4 & Hc4 & Hle4).
  assert (s5 !! path
          = Some {| project_tags :=
                      <[(max_tag_index c4 + 1)%Z := tag_name']> (project_tags c4);
                    max_tag_index := (max_tag_index c4 + 1)%Z;
                    classes := classes c4 |}) as Hc5.
  { unfold s5. rewrite (create_tag_at_path s4 project' path c4 data' tag_name');
      [| done | done].
    simpl. by rewrite lookup_insert_eq. }
  eexists _, c2, c3, c4, _.
  split_and!; [exact Hc1 | done | done | exact Hc2 | exact Hle2 | exact Hc3
               | done | done | exact Hc4 | exact Hle4 | exact Hc5 | done | done |].
  simpl in *. lia.
Qed.
End HandlerFacts.

Lemma project_at_sample :
  project_at unquote_sample lookup_project_path_sample
    store_sample "volleyball" "/projects/volleyball" config_sample.
Proof. split; reflexivity. Defined.

Lemma remove_tag_cascades_witness :
  ∃ written,
    remove_tag unquote_sample lookup_project_path_sample "volleyball" 2 store_sample
    = (inr (Redirect "project_details" "volleyball"),
       <["/projects/volleyball" := written]> store_sample)
    ∧ project_tags written = delete 2%Z (project_tags config_sample)
    ∧ dom (classes written) = dom (classes config_sample)
    ∧ (∀ class_label tags, classes config_sample !! class_label = Some tags →
         ∃ tags', classes written !! class_label = Some tags'
                  ∧ (2%Z ∉ tags')
                  ∧ (∀ other, other ≠ 2%Z → (other ∈ tags' ↔ other ∈ tags))).
Proof.
  apply (remove_tag_cascades unquote_sample lookup_project_path_sample
           store_sample "volleyball" "/projects/volleyball" config_sample 2).
  - exact project_at_sample.
  - exists "net". reflexivity.
Defined.

Lemma edit_tag_frame_witness :
  ∃ written,
    edit_tag unquote_sample lookup_project_path_sample "volleyball" 1 form_sample
      store_sample
    = (inr (Redirect "project_details" "volleyball"),
       <["/projects/volleyball" := written]> store_sample)
    ∧ project_tags written !! 1%Z = Some "serve"
    ∧ (∀ other, other ≠ 1%Z →
         project_tags written !! other = project_tags config_sample !! other)
    ∧ max_tag_index written = max_tag_index config_sample
    ∧ classes written = classes config_sample.
Proof.
  apply (edit_tag_frame unquote_sample lookup_project_path_sample
           store_sample "volleyball" "/projects/volleyball" config_sample 1
           form_sample "serve").
  - exact project_at_sample.
  - reflexivity.
Defined.

Lemma remove_tag_missing_is_atomic_witness :
  remove_tag unquote_sample lookup_project_path_sample "volleyball" 7 store_sample
  = (inl KeyError, store_sample).
Proof.
  apply (remove_tag_missing_is_atomic unquote_sample lookup_project_path_sample
           store_sample "volleyball" "/projects/volleyball" config_sample 7).
  - exact project_at_sample.
  - reflexivity.
Defined.

Lemma tags_bounded_sample : tags_bounded config_sample.
Proof.
  intros tag_idx. unfold config_sample. simpl.
  rewrite !dom_insert_L, dom_empty_L. intros Hin.
  assert (tag_idx = 1%Z ∨ tag_idx = 2%Z) as [-> | ->] by set_solver; lia.
Qed.

Lemma tag_ids_are_never_reused_witness :
  let s1 := snd (create_tag unquote_sample lookup_project_path_sample
                   "volleyball" form_sample store_sample) in
  let s2 := serve unquote_sample lookup_project_path_sample
              [EditProjectTag "volleyball" 2 form_sample] s1 in
  let s3 := snd (remove_tag unquote_sample lookup_project_path_sample
                   "volleyball" 3 s2) in
  let s4 := serve unquote_sample lookup_project_path_sample
              [RemoveProjectTag "volleyball" 1] s3 in
  let s5 := snd (create_tag unquote_sample lookup_project_path_sample
                   "volleyball" form_sample s4) in
  ∃ c5, s5 !! "/projects/volleyball" = Some c5 ∧ (3 < max_tag_index c5)%Z.
Proof.
  destruct (tag_ids_are_never_reused unquote_sample lookup_project_path_sample
              store_sample "/projects/volleyball" config_sample
              "volleyball" form_sample "serve"
              [EditProjectTag "volleyball" 2 form_sample]
              "volleyball"
              [RemoveProjectTag "volleyball" 1]
              "volleyball" form_sample "serve")
    as (c1 & c2 & c3 & c4 & c5 & H).
  - exact project_at_sample.
  - reflexivity.
  - reflexivity.
  - reflexivity.
  - reflexivity.
  - exists c5. destruct H as (_ & _ & _ & _ & _ & _ & _ & _ & _ & _ & H5 & _ & _ & Hlt).
    split; [exact H5 | exact Hlt].
Defined.

(** ** TwoPositionsRepCounter *)
Section CounterFacts.
Variable cfg : CounterConfig.
Implicit Types (st : RepCounterState) (inputs : list (list Q)) (n : Z).

Lemma two_positions_run_app inputs1 inputs2 st :
  two_positions_run cfg st (inputs1 ++ inputs2)
  = st' ← two_positions_run cfg st inputs1; two_positions_run cfg st' inputs2.
Proof.
  revert st. induction inputs1 as [|p rest IH]; intros st; simpl; [done |].
  destruct (two_positions_apply cfg st p) as [st1|]; simpl; [apply IH | done].
Qed.

(** While waiting for position 0, no call of [apply] changes the count,
    whatever the probabilities are. *)
Lemma waiting_never_counts st probabilities st' :
  tag st = waiting_pos0 →
  two_positions_apply cfg st probabilities = Some st' →
  count st' = count st.
Proof.
  unfold two_positions_apply. intros ->.
  destruct (crosses probabilities (L0 cfg) (T0 cfg)) as [[]|]; simpl;
    by intros [= <-].
Qed.

Lemma waiting_arms n probabilities :
  reaches (L0 cfg) (T0 cfg) probabilities →
  two_positions_apply cfg {| tag := waiting_pos0; count := n |} probabilities
  = Some {| tag := armed_pos0; count := n |}.
Proof. unfold reaches, two_positions_apply. simpl. by intros ->. Qed.

Lemma armed_counts n probabilities :
  reaches (L1 cfg) (T1 cfg) probabilities →
  two_positions_apply cfg {| tag := armed_pos0; count := n |} probabilities
  = Some {| tag := waiting_pos0; count := (n + 1)%Z |}.
Proof. unfold reaches, two_positions_apply. simpl. by intros ->. Qed.

Lemma waiting_stays n inputs :
  Forall (stays_below (L0 cfg) (T0 cfg)) inputs →
  two_positions_run cfg {| tag := waiting_pos0; count := n |} inputs
  = Some {| tag := waiting_pos0; count := n |}.
Proof.
  induction 1 as [|p rest Hp _ IH]; simpl; [done |].
  unfold two_positions_apply. simpl. by rewrite Hp.
Qed.

Lemma armed_stays n inputs :
  Forall (stays_below (L1 cfg) (T1 cfg)) inputs →
  two_positions_run cfg {| tag := armed_pos0; count := n |} inputs
  = Some {| tag := armed_pos0; count := n |}.
Proof.
  induction 1 as [|p rest Hp _ IH]; simpl; [done |].
  unfold two_positions_apply. simpl. by rewrite Hp.
Qed.

(** One repetition: position 0 is reached, and later position 1. *)
Lemma one_repetition n before_pos0 at_pos0 between at_pos1 :
  Forall (stays_below (L0 cfg) (T0 cfg)) before_pos0 →
  reaches (L0 cfg) (T0 cfg) at_pos0 →
  Forall (stays_below (L1 cfg) (T1 cfg)) between →
  reaches (L1 cfg) (T1 cfg) at_pos1 →
  two_positions_run cfg {| tag := waiting_pos0; count := n |}
    (before_pos0 ++ [at_pos0] ++ between ++ [at_pos1])
  = Some {| tag := waiting_pos0; count := (n + 1)%Z |}.
Proof.
  intros Hbefore H0 Hbetween H1.
  rewrite two_positions_run_app, (waiting_stays _ _ Hbefore). simpl.
  rewrite (waiting_arms _ _ H0). simpl.
  rewrite two_positions_run_app, (armed_stays _ _ Hbetween). simpl.
  by rewrite (armed_counts _ _ H1).
Qed.

(** C4. Ordering of the two positions: as long as position 0 has not
    been reached the counter stays at zero, whatever the probability of
    position 1 is, and no call made while waiting for position 0 changes
    the count; position 0 followed later by position 1 brings the count to
    one; a second such sequence brings it to two. *)
Theorem two_positions_ordering
    before1 at_pos0_1 between1 at_pos1_1 before2 at_pos0_2 between2 at_pos1_2 :
  Forall (stays_below (L0 cfg) (T0 cfg)) before1 →
  reaches (L0 cfg) (T0 cfg) at_pos0_1 →
  Forall (stays_below (L1 cfg) (T1 cfg)) between1 →
  reaches (L1 cfg) (T1 cfg) at_pos1_1 →
  Forall (stays_below (L0 cfg) (T0 cfg)) before2 →
  reaches (L0 cfg) (T0 cfg) at_pos0_2 →
  Forall (stays_below (L1 cfg) (T1 cfg)) between2 →
  reaches (L1 cfg) (T1 cfg) at_pos1_2 →
  two_positions_run cfg counter_start before1 = Some counter_start
  ∧ (∀ st probabilities st',
       tag st = waiting_pos0 →
       two_positions_apply cfg st probabilities = Some st' →
       count st' = count st)
  ∧ two_positions_run cfg counter_start
      (before1 ++ [at_pos0_1] ++ between1 ++ [at_pos1_1])
    = Some {| tag := waiting_pos0; count := 1 |}
  ∧ two_positions_run cfg counter_start
      ((before1 ++ [at_pos0_1] ++ between1 ++ [at_pos1_1])
         ++ (before2 ++ [at_pos0_2] ++ between2 ++ [at_pos1_2]))
    = Some {| tag := waiting_pos0; count := 2 |}.
Proof.
  intros Hb1 H01 Hm1 H11 Hb2 H02 Hm2 H12. split_and!.
  - by apply waiting_stays.
  - apply waiting_never_counts.
  - by apply (one_repetition 0).
  - rewrite two_positions_run_app. unfold counter_start.
    rewrite (one_repetition 0) by done.
    exact (one_repetition (0 + 1) _ _ _ _ Hb2 H02 Hm2 H12).
Qed.
End CounterFacts.

Lemma two_positions_ordering_witness :
  two_positions_run forearm_counter counter_start [only_position2; only_background]
  = Some counter_start
  ∧ two_positions_run forearm_counter counter_start
      ([only_position2; only_background] ++ [only_position1]
         ++ [only_background; only_position1] ++ [only_position2])
    = Some {| tag := waiting_pos0; count := 1 |}
  ∧ two_positions_run forearm_counter counter_start
      (([only_position2; only_background] ++ [only_position1]
          ++ [only_background; only_position1] ++ [only_position2])
         ++ ([] ++ [only_position1] ++ [] ++ [only_position2]))
    = Some {| tag := waiting_pos0; count := 2 |}.
Proof.
  destruct (two_positions_ordering forearm_counter
              [only_position2; only_background] only_position1
              [only_background; only_position1] only_position2
              [] only_position1 [] only_position2)
    as (Hzero & _ & Hone & Htwo).
  - repeat constructor.
  - reflexivity.
  - repeat constructor.
  - reflexivity.
  - constructor.
  - reflexivity.
  - constructor.
  - reflexivity.
  - split_and!; [exact Hzero | exact Hone | exact Htwo].
Defined.

(** * Further properties *)

(** ** Checkpoint merge *)
Section CheckpointMore.
Context {W : Type}.
Implicit Types (checkpoint classifier : gmap string W) (keys : list string).

Lemma finetuned_both checkpoint classifier key :
  key ∈ name_finetuned_layers checkpoint classifier ↔
  is_Some (checkpoint !! key) ∧ is_Some (classifier !! key).
Proof.
  unfold name_finetuned_layers.
  by rewrite elem_of_intersection, !elem_of_dom.
Qed.

(** X1. The merge neither adds a layer to the backbone nor drops one: the
    merged backbone has exactly the keys of the backbone, and what is left
    of the classifier has exactly the classifier keys that are not backbone
    keys. *)
Theorem merge_domains checkpoint classifier :
  ∃ merged left_over,
    merge_finetuned checkpoint classifier = Some (merged, left_over)
    ∧ dom merged = dom checkpoint
    ∧ dom left_over = dom classifier ∖ dom checkpoint.
Proof.
  destruct (merge_finetuned_lookup checkpoint classifier)
    as (merged & left_over & Hrun & Hm & Hl).
  exists merged, left_over. split_and!; [done | |]; apply set_eq; intros key.
  - rewrite !elem_of_dom, Hm. case_decide as Hk; [|done].
    apply finetuned_both in Hk. tauto.
  - rewrite elem_of_difference, !elem_of_dom, Hl.
    case_decide as Hk.
    + split; [by intros ?%is_Some_None |].
      apply finetuned_both in Hk. tauto.
    + rewrite finetuned_both in Hk. tauto.
Qed.

(** X2. No weight is lost and none is duplicated: the two dictionaries
    after the merge are disjoint, and together they hold the classifier
    checkpoint plus the backbone layers it does not override. *)
Theorem merge_loses_no_weight checkpoint classifier :
  ∃ merged left_over,
    merge_finetuned checkpoint classifier = Some (merged, left_over)
    ∧ left_over ##ₘ merged
    ∧ left_over ∪ merged = classifier ∪ checkpoint.
Proof.
  destruct (merge_finetuned_lookup checkpoint classifier)
    as (merged & left_over & Hrun & Hm & Hl).
  exists merged, left_over. split_and!; [done | |].
  - apply map_disjoint_alt. intros key. rewrite Hm, Hl.
    case_decide as Hk; [by left |].
    rewrite finetuned_both in Hk.
    destruct (classifier !! key) eqn:Hc; [|by left].
    destruct (checkpoint !! key) eqn:Hb; [|by right].
    destruct Hk. split; eauto.
  - apply map_eq. intros key. rewrite !lookup_union, Hm, Hl.
    case_decide as Hk.
    + apply finetuned_both in Hk as [[b Hb] [c Hc]]. by rewrite Hb, Hc.
    + rewrite finetuned_both in Hk.
      destruct (classifier !! key) eqn:Hc, (checkpoint !! key) eqn:Hb; try done.
Qed.

(** X3. Merging is idempotent: after a merge the two dictionaries have
    no key in common, so merging them again changes nothing. *)
Theorem merge_idempotent checkpoint classifier merged left_over :
  merge_finetuned checkpoint classifier = Some (merged, left_over) →
  merge_finetuned merged left_over = Some (merged, left_over).
Proof.
  intros Hrun.
  destruct (merge_finetuned_lookup checkpoint classifier)
    as (merged' & left_over' & Hrun' & Hm & Hl).
  rewrite Hrun in Hrun'. simplify_eq.
  assert (name_finetuned_layers merged' left_over' = ∅) as Hnone.
  { apply set_eq. intros key. rewrite finetuned_both, Hm, Hl.
    split; [|by intros ?%elem_of_empty].
    case_decide as Hk; [by intros [_ ?%is_Some_None] |].
    intros [Hb Hc]. destruct Hk. by apply finetuned_both. }
  unfold merge_finetuned. by rewrite Hnone, elements_empty.
Qed.

(** X4. A classifier checkpoint that shares no key with the backbone
    leaves both dictionaries as they were. *)
Theorem merge_without_finetuned_layers checkpoint classifier :
  dom checkpoint ## dom classifier →
  merge_finetuned checkpoint classifier = Some (checkpoint, classifier).
Proof.
  intros Hdisjoint.
  assert (name_finetuned_layers checkpoint classifier = ∅) as Hnone.
  { unfold name_finetuned_layers. set_solver. }
  unfold merge_finetuned. by rewrite Hnone, elements_empty.
Qed.

(** X5. The loop iterates over a Python set: whatever order the common
    keys come in, the result is the same. *)
Theorem merge_order_irrelevant keys checkpoint classifier :
  keys ≡ₚ elements (name_finetuned_layers checkpoint classifier) →
  merge_loop keys checkpoint classifier = merge_finetuned checkpoint classifier.
Proof.
  intros Hperm. apply merge_loop_any_order.
  - rewrite Hperm. apply NoDup_elements.
  - intros key. rewrite Hperm. apply elem_of_elements.
Qed.
End CheckpointMore.

Lemma merge_idempotent_witness :
  merge_finetuned
    (<["layer1" := 1%Z]> (<["layer2" := 20%Z]> ∅)) (<["head" := 30%Z]> ∅)
  = Some ((<["layer1" := 1%Z]> (<["layer2" := 20%Z]> ∅)) : gmap string Z,
          <["head" := 30%Z]> ∅).
Proof.
  apply (merge_idempotent backbone_sample classifier_sample).
  exact (merge_finetuned_example 1%Z 2%Z 20%Z 30%Z).
Defined.

Lemma merge_without_finetuned_layers_witness :
  merge_finetuned backbone_sample classifier_head_only
  = Some (backbone_sample, classifier_head_only).
Proof.
  apply merge_without_finetuned_layers.
  apply (bool_decide_unpack _). vm_compute. exact I.
Defined.

Lemma merge_order_irrelevant_witness :
  merge_loop ["conv2"; "conv3"] backbone_wide classifier_wide
  = merge_finetuned backbone_wide classifier_wide.
Proof.
  apply merge_order_irrelevant.
  replace (elements (name_finetuned_layers backbone_wide classifier_wide))
    with ["conv3"; "conv2"] by (vm_compute; reflexivity).
  apply perm_swap.
Defined.

(** ** Label maps *)
Section PyDictMore.
Context {K V : Type} `{EqDecision K}.
Implicit Types (d : list (K * V)).

Lemma keys_set d (k : K) (v : V) :
  PyDict.keys (PyDict.set d k v)
  = if decide (k ∈ PyDict.keys d) then PyDict.keys d else PyDict.keys d ++ [k].
Proof.
  unfold PyDict.keys. induction d as [|[k' v'] rest IH].
  - cbn. case_decide as Hin; [by apply elem_of_nil in Hin | done].
  - cbn. destruct (decide (k = k')) as [->|Hne]; cbn.
    + rewrite decide_True; [done | left].
    + rewrite IH. destruct (decide (k ∈ rest.*1)) as [Hin|Hnin].
      * rewrite decide_True; [done | by right].
      * rewrite decide_False; [done |].
        by intros [?|?]%elem_of_cons.
Qed.

Lemma wf_set d (k : K) (v : V) : PyDict.wf d → PyDict.wf (PyDict.set d k v).
Proof.
  unfold PyDict.wf. intros Hd. rewrite keys_set. case_decide; [done |].
  apply NoDup_app. split_and!; [done | | apply NoDup_singleton].
  intros x Hx ->%list_elem_of_singleton. done.
Qed.

Lemma elem_of_keys_set d (k j : K) (v : V) :
  j ∈ PyDict.keys (PyDict.set d k v) ↔ j ∈ PyDict.keys d ∨ j = k.
Proof.
  rewrite keys_set. case_decide as Hk.
  - split; [by left | by intros [?| ->]].
  - rewrite elem_of_app, list_elem_of_singleton. done.
Qed.
End PyDictMore.

Section LabelMore.
Implicit Types (class2int : list (string * Z)) (s : string) (i : Z).

Lemma INT2LAB_wf class2int : PyDict.wf (INT2LAB class2int).
Proof.
  induction class2int as [|[s i] rest IH] using rev_ind.
  - constructor.
  - rewrite INT2LAB_snoc. by apply wf_set.
Qed.

Lemma INT2LAB_keys class2int i :
  i ∈ PyDict.keys (INT2LAB class2int) ↔ i ∈ class2int.*2.
Proof.
  induction class2int as [|[s' i'] rest IH] using rev_ind.
  - done.
  - rewrite INT2LAB_snoc, elem_of_keys_set, IH, fmap_app, elem_of_app. simpl.
    by rewrite list_elem_of_singleton.
Qed.

(** X6. [INT2LAB] is a dictionary, no index occurs twice in it, even
    when labels share an index, and its keys are exactly the indices that
    occur in the label file. *)
Theorem INT2LAB_is_dict class2int :
  PyDict.wf (INT2LAB class2int)
  ∧ ∀ i, i ∈ PyDict.keys (INT2LAB class2int) ↔ ∃ s, (s, i) ∈ class2int.
Proof.
  split; [apply INT2LAB_wf |].
  intros i. rewrite INT2LAB_keys, list_elem_of_fmap. split.
  - intros [[s i'] [-> Hin]]. by exists s.
  - intros [s Hin]. by exists (s, i).
Qed.

(** X7. The output dimension of the classifier, [len(INT2LAB)], never
    exceeds the number of labels, and equals it exactly when no two labels
    share an index. *)
Theorem INT2LAB_len class2int :
  (PyDict.len (INT2LAB class2int) ≤ PyDict.len class2int)%nat
  ∧ (PyDict.len (INT2LAB class2int) = PyDict.len class2int
     ↔ NoDup class2int.*2).
Proof.
  assert (PyDict.keys (INT2LAB class2int) ⊆+ class2int.*2) as Hsub.
  { apply NoDup_submseteq; [apply INT2LAB_wf |].
    intros i. by rewrite INT2LAB_keys. }
  assert (PyDict.len (INT2LAB class2int)
          = length (PyDict.keys (INT2LAB class2int))) as ->
    by (unfold PyDict.len, PyDict.keys; by rewrite length_fmap).
  assert (PyDict.len class2int = length class2int.*2) as ->
    by (unfold PyDict.len; by rewrite length_fmap).
  split; [by apply submseteq_length |]. split.
  - intros Hlen.
    rewrite <- (submseteq_length_Permutation _ _ Hsub) by lia.
    apply INT2LAB_wf.
  - intros Hnd. apply Permutation_length.
    apply NoDup_Permutation; [apply INT2LAB_wf | done |].
    intros i. apply INT2LAB_keys.
Qed.

(** X8. When labels share an index, the one that comes last in the label
    file is the one [INT2LAB] keeps. *)
Theorem INT2LAB_last_wins (before after : list (string * Z)) s i :
  i ∉ after.*2 →
  PyDict.get (INT2LAB (before ++ (s, i) :: after)) i = Some s.
Proof.
  induction after as [|[s' i'] rest IH] using rev_ind; intros Hlast.
  - rewrite INT2LAB_snoc, get_set. by rewrite decide_True.
  - rewrite fmap_app, not_elem_of_app in Hlast. destruct Hlast as [Hrest Hi'].
    change (before ++ (s, i) :: rest ++ [(s', i')])
      with (before ++ ((s, i) :: rest) ++ [(s', i')]).
    rewrite (assoc_L (++)), INT2LAB_snoc, get_set.
    rewrite decide_False; [by apply IH |].
    intros ->. apply Hi'. simpl. left.
Qed.
End LabelMore.

Lemma INT2LAB_last_wins_witness :
  PyDict.get (INT2LAB ([("a", 0%Z); ("b", 1%Z)] ++ ("c", 0%Z) :: [("d", 2%Z)])) 0%Z
  = Some "c".
Proof.
  apply INT2LAB_last_wins.
  apply (bool_decide_unpack _). vm_compute. exact I.
Defined.

(** ** The entry point *)
Section EntryPointMore.
Context {W : Type}.
Variable load_weights : string → option (gmap string W).
Variable load_label2int : string → option (list (string * Z)).
Variable path_join : string → string → string.
Variable feature_dim : nat.

Abbreviation files_present := (files_present load_weights load_label2int path_join).
Abbreviation main := (main load_weights load_label2int path_join feature_dim).

(** X9. The statements of the script up to the construction of the
    controller go through exactly when [--custom_classifier] is given and
    not empty and the three files load: the backbone checkpoint, and the
    classifier checkpoint and the label file of that directory. The merge
    loop in particular never raises. (The constructors of the library are
    taken not to raise.) *)
Theorem main_succeeds_iff args :
  is_Some (main args) ↔
  ∃ directory checkpoint classifier class2int,
    files_present args directory checkpoint classifier class2int.
Proof.
  split.
  - intros [controller Hmain]. unfold main in Hmain.
    destruct (load_weights "resources/backbone/strided_inflated_efficientnet.ckpt")
      as [checkpoint|] eqn:Hb; [|done].
    destruct (arg_custom_classifier args) as [directory|] eqn:Hdir; [|done].
    unfold py_or in Hmain. simpl in Hmain.
    destruct (String.eqb_spec directory EmptyString) as [->|Hne]; [done |].
    simpl in Hmain.
    destruct (load_weights (path_join directory "classifier.checkpoint"))
      as [classifier|] eqn:Hc; [|done].
    simpl in Hmain.
    destruct (merge_finetuned checkpoint classifier) as [[merged left_over]|];
      [|done].
    simpl in Hmain.
    destruct (load_label2int (path_join directory "label2int.json"))
      as [class2int|] eqn:Hl; [|done].
    by exists directory, checkpoint, classifier, class2int.
  - intros (directory & checkpoint & classifier & class2int & Hfiles).
    destruct (main_returns load_weights load_label2int path_join feature_dim
                _ _ _ _ _ Hfiles) as (merged & left_over & _ & Hmain).
    eauto.
Qed.

(** X10. An option given with an empty value counts as not given: the
    camera id falls back to [0], and the input path, the output path and
    the title to [None]. *)
Theorem cli_empty_values_fall_back
    args directory checkpoint classifier class2int :
  files_present args directory checkpoint classifier class2int →
  ∃ controller,
    main args = Some controller
    ∧ (arg_camera_id args = Some EmptyString → camera_id controller = PyInt 0)
    ∧ (arg_path_in args = Some EmptyString → path_in controller = PyNone)
    ∧ (arg_path_out args = Some EmptyString → path_out controller = PyNone)
    ∧ (arg_title args = Some EmptyString →
       title (results_display controller) = PyNone).
Proof.
  intros Hfiles.
  destruct (main_returns load_weights load_label2int path_join feature_dim
              _ _ _ _ _ Hfiles) as (merged & left_over & _ & Hmain).
  eexists. split; [exact Hmain |]. simpl.
  split_and!; by intros ->.
Qed.

(** X11. The feature extractor is loaded with the backbone checkpoint in
    which every layer that the classifier checkpoint also has carries the
    classifier's weights; no layer of the classifier that the backbone
    lacks gets into it. *)
Theorem feature_extractor_weights
    args directory checkpoint classifier class2int :
  files_present args directory checkpoint classifier class2int →
  ∃ controller,
    main args = Some controller
    ∧ fe_state_dict (pipe_feature_extractor (neural_network controller))
      = filter (λ kv, kv.1 ∈ dom checkpoint) classifier ∪ checkpoint.
Proof.
  intros Hfiles.
  destruct (main_returns load_weights load_label2int path_join feature_dim
              _ _ _ _ _ Hfiles) as (merged & left_over & Hmerge & Hmain).
  eexists. split; [exact Hmain |]. simpl.
  destruct (merge_finetuned_lookup checkpoint classifier)
    as (merged' & left_over' & Hmerge' & Hm & _).
  rewrite Hmerge in Hmerge'. simplify_eq.
  apply map_eq. intros key. rewrite Hm, lookup_union.
  unfold name_finetuned_layers.
  destruct (classifier !! key) as [v|] eqn:Hv.
  - destruct (decide (key ∈ dom checkpoint)) as [Hb|Hb].
    + rewrite decide_True by (apply elem_of_intersection; split;
                              [done | by apply elem_of_dom]).
      rewrite (proj2 (map_lookup_filter_Some _ _ _ _)) by done.
      by destruct (checkpoint !! key).
    + rewrite decide_False by (by intros [? _]%elem_of_intersection).
      rewrite (proj2 (map_lookup_filter_None _ _ _)).
      * by rewrite (left_id_L None _).
      * right. intros v' _. done.
  - rewrite decide_False.
    + rewrite (proj2 (map_lookup_filter_None _ _ _)) by (by left).
      by rewrite (left_id_L None _).
    + intros [_ Hc]%elem_of_intersection.
      apply elem_of_dom in Hc as [? ?]. congruence.
Qed.
End EntryPointMore.

Lemma files_present_empty_values :
  files_present load_weights_sample load_label2int_sample path_join_sample
    args_empty_values "clf" backbone_sample classifier_sample class2int_sample.
Proof. repeat split; try reflexivity. discriminate. Defined.

Lemma cli_empty_values_fall_back_witness :
  ∃ controller,
    main load_weights_sample load_label2int_sample path_join_sample 1280
      args_empty_values = Some controller
    ∧ camera_id controller = PyInt 0
    ∧ path_in controller = PyNone
    ∧ path_out controller = PyNone
    ∧ title (results_display controller) = PyNone.
Proof.
  destruct (cli_empty_values_fall_back load_weights_sample load_label2int_sample
              path_join_sample 1280 args_empty_values "clf"
              backbone_sample classifier_sample class2int_sample)
    as (controller & Hmain & Hcam & Hin & Hout & Htitle).
  - exact files_present_empty_values.
  - exists controller. repeat split; auto.
Defined.

Lemma feature_extractor_weights_witness :
  ∃ controller,
    main load_weights_sample load_label2int_sample path_join_sample 1280
      args_sample = Some controller
    ∧ fe_state_dict (pipe_feature_extractor (neural_network controller))
      = filter (λ kv, kv.1 ∈ dom backbone_sample) classifier_sample
        ∪ backbone_sample.
Proof.
  apply (feature_extractor_weights load_weights_sample load_label2int_sample
           path_join_sample 1280 args_sample "clf"
           backbone_sample classifier_sample class2int_sample).
  exact files_present_sample.
Defined.

(** ** Project tags *)
Section HandlerMore.
Variable unquote : string → string.
Variable lookup_project_path : string → option string.

Abbreviation create_tag := (create_tag unquote lookup_project_path).
Abbreviation remove_tag := (remove_tag unquote lookup_project_path).
Abbreviation edit_tag := (edit_tag unquote lookup_project_path).
Abbreviation dispatch := (dispatch unquote lookup_project_path).
Abbreviation serve := (serve unquote lookup_project_path).
Abbreviation project_at := (project_at unquote lookup_project_path).

(** The store after a request: written at the path of the project when
    the handler gets as far as [write_project_config], untouched otherwise. *)
Lemma dispatch_store r s :
  (dispatch r s).2 =
  match lookup_project_path (unquote (request_project r)) with
  | Some path =>
      match s !! path with
      | Some config =>
          match written_by r config with
          | Some written => <[path := written]> s
          | None => s
          end
      | None => s
      end
  | None => s
  end.
Proof.
  destruct r as [project data|project tag_idx|project tag_idx data]; simpl.
  - rewrite create_tag_run. by repeat case_match; simplify_eq/=.
  - rewrite remove_tag_run. by repeat case_match; simplify_eq/=.
  - rewrite edit_tag_run. by repeat case_match; simplify_eq/=.
Qed.

Lemma serve_cons r rs s : serve (r :: rs) s = serve rs (dispatch r s).2.
Proof. reflexivity. Qed.

(** An invariant of documents that the write of a request keeps is kept
    by the whole store. *)
Lemma dispatch_keeps (P : Config → Prop) r s :
  (∀ path config written,
     lookup_project_path (unquote (request_project r)) = Some path →
     s !! path = Some config →
     P config → written_by r config = Some written → P written) →
  (∀ path config, s !! path = Some config → P config) →
  ∀ path config, (dispatch r s).2 !! path = Some config → P config.
Proof.
  intros Hstep Hs path config. rewrite dispatch_store.
  destruct (lookup_project_path (unquote (request_project r))) as [p|] eqn:Hp;
    [|by apply Hs].
  destruct (s !! p) as [c|] eqn:Hc; [|by apply Hs].
  destruct (written_by r c) as [written|] eqn:Hw; [|by apply Hs].
  destruct (decide (p = path)) as [->|Hne].
  - rewrite lookup_insert_eq. intros [= <-].
    eapply (Hstep path c); [done | done | by eapply Hs | done].
  - rewrite lookup_insert_ne by done. by apply Hs.
Qed.

(** X12. A request whose handler raises, whatever the exception, leaves
    the persisted configurations as they were. *)
Theorem raising_request_leaves_store r s e :
  (dispatch r s).1 = inl e → (dispatch r s).2 = s.
Proof.
  destruct r as [project data|project tag_idx|project tag_idx data]; simpl.
  - rewrite create_tag_run. by repeat case_match.
  - rewrite remove_tag_run. by repeat case_match.
  - rewrite edit_tag_run. by repeat case_match.
Qed.

(** X13. No sequence of requests adds a project to the store or removes
    one: the handlers only rewrite a configuration they could load. *)
Theorem serve_keeps_projects rs s : dom (serve rs s) = dom s.
Proof.
  revert s. induction rs as [|r rs IH]; intros s; [done |].
  rewrite serve_cons, IH, dispatch_store.
  destruct (lookup_project_path (unquote (request_project r))) as [p|]; [|done].
  destruct (s !! p) as [c|] eqn:Hc; [|done].
  destruct (written_by r c); [|done].
  rewrite dom_insert_L. apply elem_of_dom_2 in Hc. set_solver.
Qed.

(** X14. Requests leave the configuration of every project they do not
    address untouched. *)
Theorem serve_leaves_other_projects rs s path :
  Forall (λ r, lookup_project_path (unquote (request_project r)) ≠ Some path) rs →
  serve rs s !! path = s !! path.
Proof.
  revert s. induction rs as [|r rs IH]; intros s Hrs; [done |].
  apply Forall_cons in Hrs as [Hr Hrs].
  rewrite serve_cons, IH, dispatch_store by done.
  destruct (lookup_project_path (unquote (request_project r))) as [p|]; [|done].
  destruct (s !! p) as [c|]; [|done].
  destruct (written_by r c); [|done].
  apply lookup_insert_ne. congruence.
Qed.

(** X15. Referential integrity: if in every configuration the classes
    only refer to tags of the project, this is still so after any sequence
    of requests. The cascade in [remove_tag] is what keeps it. *)
Theorem serve_keeps_references rs s :
  (∀ path config, s !! path = Some config → classes_refer_to_tags config) →
  ∀ path config, serve rs s !! path = Some config → classes_refer_to_tags config.
Proof.
  revert s. induction rs as [|r rs IH]; intros s Hs; [done |].
  rewrite serve_cons. apply IH. apply dispatch_keeps; [|done].
  clear. intros _ config written _ _ Hrefs Hw class_label tags.
  destruct r as [project data|project tag_idx|project tag_idx data];
    simpl in Hw.
  - destruct (data !! "newTagName"); simplify_eq/=.
    intros Htags. rewrite dom_insert_L. specialize (Hrefs _ _ Htags). set_solver.
  - destruct (project_tags config !! tag_idx); simplify_eq/=.
    rewrite lookup_fmap. destruct (classes config !! class_label) as [old|] eqn:Hold;
      intros [= <-].
    rewrite remove_from_class_spec, dom_delete_L.
    specialize (Hrefs _ _ Hold). set_solver.
  - destruct (data !! "newTagName"); simplify_eq/=.
    intros Htags. rewrite dom_insert_L. specialize (Hrefs _ _ Htags). set_solver.
Qed.

(** X16. As long as an edit names a tag that its project has, no
    request brings a tag id above [max_tag_index]: a creation raises the
    bound with the id it allocates, a removal or a renaming adds no id. *)
Theorem dispatch_keeps_tags_bounded r s :
  (∀ path config, s !! path = Some config → tags_bounded config) →
  (∀ path config,
     lookup_project_path (unquote (request_project r)) = Some path →
     s !! path = Some config → edits_known_tag r config) →
  ∀ path config, (dispatch r s).2 !! path = Some config → tags_bounded config.
Proof.
  intros Hs Hknown. apply dispatch_keeps; [|done].
  intros path config written Hpath Hconfig Hb Hw.
  specialize (Hknown path config Hpath Hconfig). clear Hs Hpath Hconfig.
  destruct r as [project data|project tag_idx|project tag_idx data];
    simpl in Hw, Hknown.
  - destruct (data !! "newTagName"); simplify_eq/=.
    intros j. simpl. rewrite dom_insert_L.
    intros [->%elem_of_singleton|Hj]%elem_of_union; [lia |].
    specialize (Hb j Hj). lia.
  - destruct (project_tags config !! tag_idx); simplify_eq/=.
    intros j. simpl. rewrite dom_delete_L. intros Hj. apply Hb. set_solver.
  - destruct (data !! "newTagName"); simplify_eq/=.
    intros j. simpl. rewrite dom_insert_L.
    intros [->%elem_of_singleton|Hj]%elem_of_union; [|by apply Hb].
    by apply Hb, elem_of_dom.
Qed.

(** X17. Removing a tag is not repeatable: once the tag is gone, the
    same request raises [KeyError] and changes nothing. *)
Theorem remove_tag_twice s project path config tag_idx :
  project_at s project path config →
  is_Some (project_tags config !! tag_idx) →
  remove_tag project tag_idx (remove_tag project tag_idx s).2
  = (inl KeyError, (remove_tag project tag_idx s).2).
Proof.
  intros [Hpath Hconfig] [name Hname].
  rewrite (remove_tag_run _ _ project tag_idx s), Hpath, Hconfig, Hname. simpl.
  rewrite remove_tag_run, Hpath, lookup_insert_eq. simpl.
  by rewrite lookup_delete_eq.
Qed.

(** X18. Creating a tag and removing it again gives back the tags and
    the classes of a well-formed configuration, but not the id: only
    [max_tag_index] keeps the trace of the creation. *)
Theorem create_then_remove_restores s project path config data tag_name :
  project_at s project path config →
  tags_bounded config →
  classes_refer_to_tags config →
  data !! "newTagName" = Some tag_name →
  remove_tag project (max_tag_index config + 1) (create_tag project data s).2
  = (inr (Redirect "project_details" (unquote project)),
     <[path := {| project_tags := project_tags config;
                  max_tag_index := (max_tag_index config + 1)%Z;
                  classes := classes config |}]> s).
Proof.
  intros [Hpath Hconfig] Hb Hrefs Hdata.
  assert (project_tags config !! (max_tag_index config + 1)%Z = None) as Hfree.
  { apply not_elem_of_dom. intros Hin. specialize (Hb _ Hin). lia. }
  rewrite create_tag_run, Hpath, Hconfig, Hdata. simpl.
  rewrite remove_tag_run, Hpath, lookup_insert_eq. simpl.
  rewrite lookup_insert_eq, insert_insert_eq.
  rewrite delete_insert_eq, (delete_id _ _ Hfree).
  do 3 f_equal. f_equal.
  apply map_eq. intros class_label. rewrite lookup_fmap.
  destruct (classes config !! class_label) as [tags|] eqn:Htags; [|done].
  simpl. f_equal. rewrite remove_from_class_spec.
  specialize (Hrefs _ _ Htags).
  assert ((max_tag_index config + 1)%Z ∉ tags); [|set_solver].
  intros Hin. apply Hrefs in Hin. specialize (Hb _ Hin). lia.
Qed.

(** X19. Of two renamings of the same tag the last one decides: the
    first leaves no trace. *)
Theorem edit_tag_last_write_wins s project path config tag_idx data1 data2 n1 n2 :
  project_at s project path config →
  data1 !! "newTagName" = Some n1 →
  data2 !! "newTagName" = Some n2 →
  edit_tag project tag_idx data2 (edit_tag project tag_idx data1 s).2
  = edit_tag project tag_idx data2 s.
Proof.
  intros [Hpath Hconfig] Hd1 Hd2.
  rewrite (edit_tag_run _ _ project tag_idx data1 s), Hpath, Hconfig, Hd1. simpl.
  rewrite !edit_tag_run, Hpath, Hconfig, lookup_insert_eq, Hd2. simpl.
  by rewrite !insert_insert_eq.
Qed.

(** X20. Renaming a tag to the name it has changes nothing in the
    persisted configurations. *)
Theorem edit_tag_same_name_is_noop s project path config tag_idx data name :
  project_at s project path config →
  project_tags config !! tag_idx = Some name →
  data !! "newTagName" = Some name →
  edit_tag project tag_idx data s
  = (inr (Redirect "project_details" (unquote project)), s).
Proof.
  intros [Hpath Hconfig] Hname Hdata.
  rewrite edit_tag_run, Hpath, Hconfig, Hdata. f_equal.
  rewrite (insert_id _ _ _ Hname). destruct config. by apply insert_id.
Qed.

(** X21. In a configuration whose tag ids do not exceed
    [max_tag_index], a creation overwrites nothing: every tag keeps its
    name, there is exactly one tag more, and the classes are as before. *)
Theorem create_tag_keeps_existing_tags s project path config data tag_name :
  project_at s project path config →
  tags_bounded config →
  data !! "newTagName" = Some tag_name →
  ∃ written,
    create_tag project data s
    = (inr (Redirect "project_details" (unquote project)), <[path := written]> s)
    ∧ (∀ tag_idx name, project_tags config !! tag_idx = Some name →
                       project_tags written !! tag_idx = Some name)
    ∧ size (project_tags written) = S (size (project_tags config))
    ∧ classes written = classes config.
Proof.
  intros Hat Hb Hdata.
  assert (project_tags config !! (max_tag_index config + 1)%Z = None) as Hfree.
  { apply not_elem_of_dom. intros Hin. specialize (Hb _ Hin). lia. }
  eexists. split; [by apply create_tag_at_path |]. simpl. split_and!; [| |done].
  - intros tag_idx name Hname. rewrite lookup_insert_ne; [done |].
    intros <-. congruence.
  - by apply map_size_insert_None.
Qed.

(** X22. [edit_tag] does not check that the tag exists: on the next free
    id it stores a tag without moving [max_tag_index], and the following
    creation allocates that very id and replaces the name. *)
Theorem edit_next_id_then_create_overwrites
    s project path config data1 data2 n1 n2 :
  project_at s project path config →
  data1 !! "newTagName" = Some n1 →
  data2 !! "newTagName" = Some n2 →
  let next := (max_tag_index config + 1)%Z in
  ∃ edited created,
    (edit_tag project next data1 s).2 !! path = Some edited
    ∧ project_tags edited !! next = Some n1
    ∧ max_tag_index edited = max_tag_index config
    ∧ (create_tag project data2 (edit_tag project next data1 s).2).2 !! path
      = Some created
    ∧ project_tags created !! next = Some n2
    ∧ max_tag_index created = next.
Proof.
  intros [Hpath Hconfig] Hd1 Hd2 next.
  rewrite edit_tag_run, Hpath, Hconfig, Hd1. simpl.
  rewrite create_tag_run, Hpath, lookup_insert_eq, Hd2. simpl.
  rewrite !lookup_insert_eq.
  eexists _, _. split_and!; [done | | done | done | | done]; simpl;
    by rewrite lookup_insert_eq.
Qed.
End HandlerMore.

Lemma store_sample_lookup path config :
  store_sample !! path = Some config →
  path = "/projects/volleyball" ∧ config = config_sample.
Proof.
  unfold store_sample. intros [[<- <-]|[_ Hempty]]%lookup_insert_Some; [done |].
  by rewrite lookup_empty in Hempty.
Qed.

Lemma classes_refer_to_tags_sample : classes_refer_to_tags config_sample.
Proof.
  intros class_label tags. unfold config_sample. simpl.
  rewrite !dom_insert_L, dom_empty_L.
  intros [[_ <-]|[_ [[_ <-]|[_ Hempty]]%lookup_insert_Some]]%lookup_insert_Some;
    [set_solver | set_solver |].
  by rewrite lookup_empty in Hempty.
Qed.

Lemma raising_request_leaves_store_witness :
  (dispatch unquote_sample lookup_project_path_sample
     (RemoveProjectTag "volleyball" 7) store_sample).2 = store_sample.
Proof.
  apply (raising_request_leaves_store unquote_sample lookup_project_path_sample
           (RemoveProjectTag "volleyball" 7) store_sample KeyError).
  reflexivity.
Defined.

Lemma serve_leaves_other_projects_witness :
  serve unquote_sample lookup_two_projects
    [CreateProjectTag "volleyball" form_sample; RemoveProjectTag "volleyball" 1]
    store_two_projects !! "/projects/tennis"
  = store_two_projects !! "/projects/tennis".
Proof.
  apply serve_leaves_other_projects.
  repeat constructor; discriminate.
Defined.

Lemma serve_keeps_references_witness :
  ∃ config,
    serve unquote_sample lookup_project_path_sample
      [CreateProjectTag "volleyball" form_sample;
       RemoveProjectTag "volleyball" 2;
       EditProjectTag "volleyball" 9 form_sample]
      store_sample !! "/projects/volleyball" = Some config
    ∧ classes_refer_to_tags config.
Proof.
  pose proof (serve_keeps_references unquote_sample lookup_project_path_sample
                [CreateProjectTag "volleyball" form_sample;
                 RemoveProjectTag "volleyball" 2;
                 EditProjectTag "volleyball" 9 form_sample]
                store_sample) as Hkept.
  destruct (serve unquote_sample lookup_project_path_sample
              [CreateProjectTag "volleyball" form_sample;
               RemoveProjectTag "volleyball" 2;
               EditProjectTag "volleyball" 9 form_sample]
              store_sample !! "/projects/volleyball") as [config|] eqn:Hconfig.
  - exists config. split; [reflexivity |].
    apply (Hkept (λ path config Hin,
                    eq_ind_r classes_refer_to_tags classes_refer_to_tags_sample
                      (proj2 (store_sample_lookup path config Hin)))
                 "/projects/volleyball" config Hconfig).
  - vm_compute in Hconfig. discriminate Hconfig.
Defined.

Lemma dispatch_keeps_tags_bounded_witness :
  ∃ config,
    (dispatch unquote_sample lookup_project_path_sample
       (EditProjectTag "volleyball" 1 form_sample) store_sample).2
      !! "/projects/volleyball" = Some config
    ∧ tags_bounded config.
Proof.
  pose proof (dispatch_keeps_tags_bounded unquote_sample
                lookup_project_path_sample
                (EditProjectTag "volleyball" 1 form_sample) store_sample)
    as Hkept.
  destruct ((dispatch unquote_sample lookup_project_path_sample
               (EditProjectTag "volleyball" 1 form_sample) store_sample).2
              !! "/projects/volleyball") as [config|] eqn:Hconfig.
  - exists config. split; [reflexivity |].
    apply (λ H1 H2, Hkept H1 H2 "/projects/volleyball" config Hconfig).
    + intros path c [_ ->]%store_sample_lookup. exact tags_bounded_sample.
    + intros path c _ [_ ->]%store_sample_lookup. exists "ball". reflexivity.
  - vm_compute in Hconfig. discriminate Hconfig.
Defined.

Lemma remove_tag_twice_witness :
  remove_tag unquote_sample lookup_project_path_sample "volleyball" 2
    (remove_tag unquote_sample lookup_project_path_sample "volleyball" 2
       store_sample).2
  = (inl KeyError,
     (remove_tag unquote_sample lookup_project_path_sample "volleyball" 2
        store_sample).2).
Proof.
  apply (remove_tag_twice unquote_sample lookup_project_path_sample
           store_sample "volleyball" "/projects/volleyball" config_sample 2).
  - exact project_at_sample.
  - exists "net". reflexivity.
Defined.

Lemma create_then_remove_restores_witness :
  remove_tag unquote_sample lookup_project_path_sample "volleyball" (2 + 1)
    (create_tag unquote_sample lookup_project_path_sample "volleyball"
       form_sample store_sample).2
  = (inr (Redirect "project_details" "volleyball"),
     <["/projects/volleyball" :=
         {| project_tags := project_tags config_sample;
            max_tag_index := (2 + 1)%Z;
            classes := classes config_sample |}]> store_sample).
Proof.
  apply (create_then_remove_restores unquote_sample lookup_project_path_sample
           store_sample "volleyball" "/projects/volleyball" config_sample
           form_sample "serve").
  - exact project_at_sample.
  - exact tags_bounded_sample.
  - exact classes_refer_to_tags_sample.
  - reflexivity.
Defined.

Lemma edit_tag_last_write_wins_witness :
  edit_tag unquote_sample lookup_project_path_sample "volleyball" 1 form_other
    (edit_tag unquote_sample lookup_project_path_sample "volleyball" 1
       form_sample store_sample).2
  = edit_tag unquote_sample lookup_project_path_sample "volleyball" 1 form_other
      store_sample.
Proof.
  apply (edit_tag_last_write_wins unquote_sample lookup_project_path_sample
           store_sample "volleyball" "/projects/volleyball" config_sample 1
           form_sample form_other "serve" "dig").
  - exact project_at_sample.
  - reflexivity.
  - reflexivity.
Defined.

Lemma edit_tag_same_name_is_noop_witness :
  edit_tag unquote_sample lookup_project_path_sample "volleyball" 1 form_ball
    store_sample
  = (inr (Redirect "project_details" "volleyball"), store_sample).
Proof.
  apply (edit_tag_same_name_is_noop unquote_sample lookup_project_path_sample
           store_sample "volleyball" "/projects/volleyball" config_sample 1
           form_ball "ball").
  - exact project_at_sample.
  - reflexivity.
  - reflexivity.
Defined.

Lemma create_tag_keeps_existing_tags_witness :
  ∃ written,
    create_tag unquote_sample lookup_project_path_sample "volleyball" form_sample
      store_sample
    = (inr (Redirect "project_details" "volleyball"),
       <["/projects/volleyball" := written]> store_sample)
    ∧ (∀ tag_idx name, project_tags config_sample !! tag_idx = Some name →
                       project_tags written !! tag_idx = Some name)
    ∧ size (project_tags written) = S (size (project_tags config_sample))
    ∧ classes written = classes config_sample.
Proof.
  apply (create_tag_keeps_existing_tags unquote_sample lookup_project_path_sample
           store_sample "volleyball" "/projects/volleyball" config_sample
           form_sample "serve").
  - exact project_at_sample.
  - exact tags_bounded_sample.
  - reflexivity.
Defined.

Lemma edit_next_id_then_create_overwrites_witness :
  ∃ edited created,
    (edit_tag unquote_sample lookup_project_path_sample "volleyball" (2 + 1)
       form_sample store_sample).2 !! "/projects/volleyball" = Some edited
    ∧ project_tags edited !! (2 + 1)%Z = Some "serve"
    ∧ max_tag_index edited = 2%Z
    ∧ (create_tag unquote_sample lookup_project_path_sample "volleyball"
         form_other
         (edit_tag unquote_sample lookup_project_path_sample "volleyball" (2 + 1)
            form_sample store_sample).2).2 !! "/projects/volleyball"
      = Some created
    ∧ project_tags created !! (2 + 1)%Z = Some "dig"
    ∧ max_tag_index created = (2 + 1)%Z.
Proof.
  apply (edit_next_id_then_create_overwrites unquote_sample
           lookup_project_path_sample store_sample "volleyball"
           "/projects/volleyball" config_sample form_sample form_other
           "serve" "dig").
  - exact project_at_sample.
  - reflexivity.
  - reflexivity.
Defined.

(** ** Allocation of tag ids *)
Section TagIds.
Variable unquote : string → string.
Variable lookup_project_path : string → option string.

Abbreviation create_tag := (create_tag unquote lookup_project_path).
Abbreviation remove_tag := (remove_tag unquote lookup_project_path).
Abbreviation serve := (serve unquote lookup_project_path).
Abbreviation project_at := (project_at unquote lookup_project_path).

(** C5 (amended). Allocation of tag ids. [remove_tag] leaves
    [max_tag_index] unchanged and the tag absent; no request served
    afterwards, of whatever route and project, lowers [max_tag_index];
    [create_tag] allocates [max_tag_index + 1] and stores it as the new
    [max_tag_index]. Hence the id of a removed tag that did not exceed
    [max_tag_index] when it was removed is below the id that any later
    creation allocates. *)
Theorem removed_id_within_bound_is_never_reused
    s project path config tag_idx after project' data tag_name :
  project_at s project path config →
  (tag_idx ≤ max_tag_index config)%Z →
  lookup_project_path (unquote project') = Some path →
  data !! "newTagName" = Some tag_name →
  let s1 := (remove_tag project tag_idx s).2 in
  let s2 := serve after s1 in
  let s3 := (create_tag project' data s2).2 in
  ∃ c1 c2 c3,
    s1 !! path = Some c1
    ∧ max_tag_index c1 = max_tag_index config
    ∧ project_tags c1 !! tag_idx = None
    ∧ s2 !! path = Some c2
    ∧ (max_tag_index c1 ≤ max_tag_index c2)%Z
    ∧ s3 !! path = Some c3
    ∧ project_tags c3
      = <[(max_tag_index c2 + 1)%Z := tag_name]> (project_tags c2)
    ∧ max_tag_index c3 = (max_tag_index c2 + 1)%Z
    ∧ (tag_idx < max_tag_index c3)%Z.
Proof.
  intros Hat Hbound Hp' Hdata s1 s2 s3.
  destruct (remove_tag_at_path unquote lookup_project_path
              s project path config tag_idx Hat)
    as (c1 & Hc1 & Hmax1 & Hgone).
  destruct (serve_max_monotone unquote lookup_project_path after s1 path c1 Hc1)
    as (c2 & Hc2 & Hle2).
  assert (s3 !! path
          = Some {| project_tags :=
                      <[(max_tag_index c2 + 1)%Z := tag_name]> (project_tags c2);
                    max_tag_index := (max_tag_index c2 + 1)%Z;
                    classes := classes c2 |}) as Hc3.
  { unfold s3.
    rewrite (create_tag_at_path unquote lookup_project_path
               s2 project' path c2 data tag_name); [| done | done].
    simpl. by rewrite lookup_insert_eq. }
  exists c1, c2. eexists.
  split_and!; [exact Hc1 | done | done | exact Hc2 | exact Hle2 | exact Hc3
               | done | done |].
  simpl. lia.
Qed.
End TagIds.

Lemma removed_id_within_bound_is_never_reused_witness :
  let s1 := snd (remove_tag unquote_sample lookup_project_path_sample
                   "volleyball" 2 store_sample) in
  let s2 := serve unquote_sample lookup_project_path_sample
              [EditProjectTag "volleyball" 1 form_other;
               RemoveProjectTag "volleyball" 1] s1 in
  let s3 := snd (create_tag unquote_sample lookup_project_path_sample
                   "volleyball" form_sample s2) in
  ∃ c3, s3 !! "/projects/volleyball" = Some c3 ∧ (2 < max_tag_index c3)%Z.
Proof.
  destruct (removed_id_within_bound_is_never_reused
              unquote_sample lookup_project_path_sample
              store_sample "volleyball" "/projects/volleyball" config_sample 2
              [EditProjectTag "volleyball" 1 form_other;
               RemoveProjectTag "volleyball" 1]
              "volleyball" form_sample "serve")
    as (c1 & c2 & c3 & H).
  - exact project_at_sample.
  - simpl. lia.
  - reflexivity.
  - reflexivity.
  - exists c3. destruct H as (_ & _ & _ & _ & _ & H3 & _ & _ & Hlt).
    split; [exact H3 | exact Hlt].
Defined.

(** C5 (as stated) fails. On the sample project (tags 1 and 2,
    [max_tag_index] 2), [edit_tag] with the unknown id 4 stores a tag
    without moving [max_tag_index]; [remove_tag] deletes it; the second of
    two creations then allocates the id 4 again. All four requests return
    the redirect. *)
Lemma deleted_id_is_reallocated :
  let edited := edit_tag unquote_sample lookup_project_path_sample
                  "volleyball" 4 form_sample store_sample in
  let removed := remove_tag unquote_sample lookup_project_path_sample
                   "volleyball" 4 (snd edited) in
  let created := create_tag unquote_sample lookup_project_path_sample
                   "volleyball" form_other (snd removed) in
  let created_again := create_tag unquote_sample lookup_project_path_sample
                         "volleyball" form_other (snd created) in
  fst edited = inr (Redirect "project_details" "volleyball")
  ∧ (∃ c, snd edited !! "/projects/volleyball" = Some c
          ∧ project_tags c !! 4%Z = Some "serve"
          ∧ max_tag_index c = 2%Z)
  ∧ fst removed = inr (Redirect "project_details" "volleyball")
  ∧ (∃ c, snd removed !! "/projects/volleyball" = Some c
          ∧ project_tags c !! 4%Z = None
          ∧ max_tag_index c = 2%Z)
  ∧ fst created = inr (Redirect "project_details" "volleyball")
  ∧ (∃ c, snd created !! "/projects/volleyball" = Some c
          ∧ max_tag_index c = 3%Z)
  ∧ fst created_again = inr (Redirect "project_details" "volleyball")
  ∧ (∃ c, snd created_again !! "/projects/volleyball" = Some c
          ∧ max_tag_index c = 4%Z
          ∧ project_tags c !! 4%Z = Some "dig").
Proof.
  split_and!; try reflexivity;
    eexists; split_and!; vm_compute; reflexivity.
Qed.
